(** * Bus-Buddy front end: a shallow embedding of the dashboards' logic

    The development follows the source files of the front end:
    - [DriverDashboard] : the handlers [handleBusStatusToggle],
      [handleUpdateLocation] and [handleEmergency];
    - [TransportDashboard] and [StudentDashboard] : the subscription effect,
      the snapshot fetch on mount, the [location_update] handler and, for
      the transport dashboard, the toggle and resolve handlers;
    - [App] and [Landing] : the role based routes, the role selector and
      the request of the form.

    JavaScript values are modelled as the handlers use them: strings are
    [string] (truthy iff non-empty), numbers are [jsnum] (the exact value of
    the double, NaN and the two infinities), arrays are lists updated by
    index, and what a handler does to the outside world is a list of
    [Effect]s in program order.  An awaited request is given to the handler
    by the way it settles ([Reply]); a mounted component is a state machine
    ([step]) over what React and the socket hook deliver to it.  Console
    output, the options of a toast, the map widgets, the geolocation lookup
    and the form of a new bus are left out. *)

From Stdlib Require Import ZArith QArith String Ascii List Lia.
From stdpp Require Import base list strings gmap.
Import ListNotations.

Local Close Scope Q_scope.
Local Open Scope string_scope.
Local Open Scope list_scope.

(** ** JavaScript numbers and [parseFloat] *)

Module JS.

(** A JavaScript number.  Comparisons of doubles are exact, so a finite
    number is represented by the rational it denotes ([-0] and [0] are not
    told apart: no comparison does). *)
Inductive jsnum : Type :=
| NaN : jsnum
| NegInf : jsnum
| Fin (q : Q) : jsnum
| PosInf : jsnum.

Definition isNaN (x : jsnum) : bool :=
  match x with NaN => true | _ => false end.

Definition Qltb (a b : Q) : bool := negb (Qle_bool b a).

(** [x < y] of JavaScript: false as soon as one side is NaN. *)
Definition lt (x y : jsnum) : bool :=
  match x, y with
  | NaN, _ | _, NaN => false
  | NegInf, NegInf => false
  | NegInf, _ => true
  | _, NegInf => false
  | PosInf, _ => false
  | Fin _, PosInf => true
  | Fin a, Fin b => Qltb a b
  end.

(** [x > y] of JavaScript. *)
Definition gt (x y : jsnum) : bool := lt y x.

Definition ofZ (z : Z) : jsnum := Fin (inject_Z z).

(** Truthiness of a string: every string but the empty one. *)
Definition truthy (s : string) : bool :=
  match s with EmptyString => false | String _ _ => true end.

(** [a || b] on strings. *)
Definition or_else (a b : string) : string := if truthy a then a else b.

(** *** [parseFloat] : the longest prefix that is a StrDecimalLiteral,
    after the leading white space (of the ASCII range here) *)

Definition is_space (c : ascii) : bool :=
  let n := nat_of_ascii c in
  (Nat.eqb n 32 || (Nat.leb 9 n && Nat.leb n 13))%bool.

Definition is_digit (c : ascii) : bool :=
  let n := nat_of_ascii c in (Nat.leb 48 n && Nat.leb n 57)%bool.

Definition digit_val (c : ascii) : Z := Z.of_nat (nat_of_ascii c) - 48.

Fixpoint skip_space (s : string) : string :=
  match s with
  | String c r => if is_space c then skip_space r else s
  | EmptyString => s
  end.

(** Reads a run of decimal digits: accumulated value, number of digits
    read, rest of the input. *)
Fixpoint digits (acc : Z) (n : nat) (s : string) : Z * nat * string :=
  match s with
  | String c r => if is_digit c then digits (10 * acc + digit_val c) (S n) r
                  else (acc, n, s)
  | EmptyString => (acc, n, s)
  end.

(** Optional sign: [true] for a leading minus. *)
Definition sign (s : string) : bool * string :=
  match s with
  | String "-" r => (true, r)
  | String "+" r => (false, r)
  | _ => (false, s)
  end.

(** Optional exponent part; an [e] that no digit follows is not read. *)
Definition exponent (s : string) : Z :=
  match s with
  | String c r =>
      if (Ascii.eqb c "e" || Ascii.eqb c "E")%bool then
        let '(neg, r') := sign r in
        let '(e, n, _) := digits 0 0 r' in
        match n with O => 0 | S _ => if neg then - e else e end
      else 0
  | EmptyString => 0
  end.

(** [m * 10 ^ e] as a rational. *)
Definition scale10 (m e : Z) : Q :=
  match e with
  | Zneg p => Qmake m (Pos.pow 10 p)
  | _ => inject_Z (m * 10 ^ e)
  end.

(** [n / (d * 2 ^ k)] as a fraction of integers, for any sign of [k]. *)
Definition over_pow2 (n d k : Z) : Z * Z :=
  if (0 <=? k)%Z then (n, d * 2 ^ k)%Z else (n * 2 ^ (- k), d)%Z.

(** [m * 2 ^ k] as a rational in lowest terms. *)
Definition scale2 (m k : Z) : Q :=
  if (0 <=? k)%Z then inject_Z (m * 2 ^ k)
  else Qred (Qmake m (Z.to_pos (2 ^ (- k)))).

(** The double nearest to a rational: 53 bits of precision, ties to the
    even mantissa, exponents from -1022 (subnormals below) to 1023 and an
    infinity beyond. *)
Definition round_double (q : Q) : jsnum :=
  let n := Z.abs (Qnum q) in
  let d := Zpos (Qden q) in
  if (n =? 0)%Z then Fin 0
  else
    let e0 := (Z.log2 n - Z.log2 d)%Z in
    let '(n0, d0) := over_pow2 n d e0 in
    let e := Z.max (if (n0 <? d0)%Z then e0 - 1 else e0) (-1022) in
    let k := (e - 52)%Z in
    let '(num, den) := over_pow2 n d k in
    let fl := (num / den)%Z in
    let r := (num mod den)%Z in
    let m :=
      if (2 * r <? den)%Z then fl
      else if (den <? 2 * r)%Z then (fl + 1)%Z
      else if Z.even fl then fl else (fl + 1)%Z in
    let negative := (Qnum q <? 0)%Z in
    if ((1023 <? e) || ((e =? 1023) && (m =? 2 ^ 53)))%Z then
      (if negative then NegInf else PosInf)
    else Fin (scale2 (if negative then - m else m) k).

Definition parseFloat (input : string) : jsnum :=
  let '(neg, s) := sign (skip_space input) in
  if String.prefix "Infinity" s then (if neg then NegInf else PosInf)
  else
    let '(i, ni, s1) := digits 0 0 s in
    let '(m, nf, s2) :=
      match s1 with
      | String "." r => digits i 0 r
      | _ => (i, O, s1)
      end in
    match (ni + nf)%nat with
    | O => NaN
    | S _ =>
        let q := scale10 m (exponent s2 - Z.of_nat nf) in
        round_double (if neg then Qopp q else q)
    end.

End JS.

(** ** Values exchanged with the backend *)

(** What [error.response?.data?.detail] can be once an [api] call has been
    rejected: a falsy value (no response, no detail, null), a string, or
    any other truthy value (the validation errors arrive as an array). *)
Inductive Detail : Type :=
| DFalsy : Detail
| DString (s : string) : Detail
| DObject : Detail.

(** [detail || fallback]. *)
Definition detail_or (d : Detail) (fallback : string) : Detail :=
  match d with
  | DFalsy => DString fallback
  | DString s => if JS.truthy s then d else DString fallback
  | DObject => DObject
  end.

(** How an awaited [api] call settles. *)
Inductive Reply (A : Type) : Type :=
| Fulfilled (data : A) : Reply A
| Rejected (detail : Detail) : Reply A.
Arguments Fulfilled {A} data.
Arguments Rejected {A} detail.

(** The object stored under [last_location]. *)
Module Loc.
Record t : Type := mk
  { latitude : JS.jsnum;
    longitude : JS.jsnum;
    speed : JS.jsnum;
    timestamp : string }.
End Loc.

(** A bus as the client holds it.  A field the object may lack is an
    [option]. *)
Module Bus.
Record t : Type := mk
  { id : string;
    bus_number : string;
    route_name : option string;
    capacity : option Z;
    driver_id : option string;
    status : option string;
    last_location : option Loc.t }.

(** [{...b, status: st}] *)
Definition with_status (st : string) (b : t) : t :=
  mk (id b) (bus_number b) (route_name b) (capacity b) (driver_id b)
     (Some st) (last_location b).

(** [{...b, status: st, last_location: l}] *)
Definition with_status_location (st : string) (l : Loc.t) (b : t) : t :=
  mk (id b) (bus_number b) (route_name b) (capacity b) (driver_id b)
     (Some st) (Some l).
End Bus.

(** The [data] of a [location_update] message. *)
Module LocationData.
Record t : Type := mk
  { bus_id : string;
    bus_number : string;
    latitude : JS.jsnum;
    longitude : JS.jsnum;
    speed : JS.jsnum;
    timestamp : string }.

(** [{latitude: data.latitude, longitude: data.longitude,
     speed: data.speed, timestamp: data.timestamp}] *)
Definition last_location (data : t) : Loc.t :=
  Loc.mk (latitude data) (longitude data) (speed data) (timestamp data).
End LocationData.

(** An emergency alert, as listed by [/emergency] and as the [data] of an
    [emergency_alert] message. *)
Module Alert.
Record t : Type := mk
  { id : string;
    bus_number : string;
    description : string;
    status : string;
    timestamp : string }.
End Alert.

(** A message pushed on the streaming connection, by its [event]. *)
Inductive Message : Type :=
| LocationUpdate (data : LocationData.t) : Message
| EmergencyAlert (data : Alert.t) : Message
| OtherEvent (event : string) : Message.

(** A flat JSON object, as a list of its fields in the order written. *)
Definition Json : Type := list (string * string).

(** The body of a POST request. *)
Inductive Body : Type :=
| LocationBody (bus_id : string) (latitude longitude speed heading : JS.jsnum) : Body
| EmergencyBody (bus_id driver_id : string) (latitude longitude : JS.jsnum)
                (description : string) : Body
| FormBody (fields : Json) : Body.

(** What a handler does to the outside world. *)
Inductive Effect : Type :=
| Get (url : string) : Effect
| Post (url : string) (body : Body) : Effect
| Patch (url : string) : Effect
| ToastError (msg : Detail) : Effect
| ToastSuccess (msg : string) : Effect
| WsSend (msg : Json) : Effect.

Definition is_request (e : Effect) : bool :=
  match e with Get _ | Post _ _ | Patch _ => true | _ => false end.

(** [Array.prototype.findIndex]: the first index whose element satisfies
    [p], [-1] when there is none. *)
Fixpoint findIndexFrom {A : Type} (p : A -> bool) (i : Z) (l : list A) : Z :=
  match l with
  | [] => -1
  | x :: r => if p x then i else findIndexFrom p (i + 1) r
  end.

Definition findIndex {A : Type} (p : A -> bool) (l : list A) : Z :=
  findIndexFrom p 0 l.

(** ** DriverDashboard *)

Module Driver.

Record Coords : Type := mkCoords
  { latitude : string;
    longitude : string }.

(** The component state ([useState] cells). *)
Record State : Type := mkState
  { buses : list Bus.t;
    selectedBus : string;
    location : Coords;
    emergencyDesc : string;
    loading : bool;
    busStatus : string }.

Definition setBuses (f : list Bus.t -> list Bus.t) (s : State) : State :=
  mkState (f (buses s)) (selectedBus s) (location s) (emergencyDesc s)
          (loading s) (busStatus s).

Definition setEmergencyDesc (d : string) (s : State) : State :=
  mkState (buses s) (selectedBus s) (location s) d (loading s) (busStatus s).

Definition setLoading (b : bool) (s : State) : State :=
  mkState (buses s) (selectedBus s) (location s) (emergencyDesc s) b
          (busStatus s).

Definition setBusStatus (st : string) (s : State) : State :=
  mkState (buses s) (selectedBus s) (location s) (emergencyDesc s)
          (loading s) st.

(** [!selectedBus || !location.latitude || !location.longitude] *)
Definition missing_input (s : State) : bool :=
  (negb (JS.truthy (selectedBus s))
   || negb (JS.truthy (latitude (location s)))
   || negb (JS.truthy (longitude (location s))))%bool.

Definition handleBusStatusToggle (s : State) (reply : Reply unit)
  : State * list Effect :=
  if negb (JS.truthy (selectedBus s)) then
    (s, [ToastError (DString "Please select a bus first")])
  else
    let s1 := setLoading true s in
    let newStatus :=
      if String.eqb (busStatus s) "active" then "inactive" else "active" in
    let req :=
      Patch ("/buses/" +:+ selectedBus s +:+ "/status?status=" +:+ newStatus) in
    match reply with
    | Fulfilled _ =>
        let s2 := setBusStatus newStatus s1 in
        let msg :=
          "Bus " +:+ (if String.eqb newStatus "active" then "activated"
                      else "deactivated") +:+ " successfully" in
        let s3 :=
          setBuses
            (fmap (fun b => if String.eqb (Bus.id b) (selectedBus s)
                            then Bus.with_status newStatus b else b)) s2 in
        (setLoading false s3, [req; ToastSuccess msg])
    | Rejected detail =>
        (setLoading false s1,
         [req; ToastError (detail_or detail "Failed to update bus status")])
    end.

Definition handleUpdateLocation (s : State) (reply : Reply unit)
  : State * list Effect :=
  if missing_input s then
    (s, [ToastError (DString "Please select a bus and enter valid coordinates")])
  else
    let lat := JS.parseFloat (latitude (location s)) in
    let lng := JS.parseFloat (longitude (location s)) in
    if (JS.isNaN lat || JS.isNaN lng)%bool then
      (s, [ToastError (DString "Please enter valid numeric coordinates")])
    else if (JS.lt lat (JS.ofZ (-90)) || JS.gt lat (JS.ofZ 90))%bool then
      (s, [ToastError (DString "Latitude must be between -90 and 90")])
    else if (JS.lt lng (JS.ofZ (-180)) || JS.gt lng (JS.ofZ 180))%bool then
      (s, [ToastError (DString "Longitude must be between -180 and 180")])
    else
      let s1 := setLoading true s in
      let req :=
        Post "/locations"
             (LocationBody (selectedBus s) lat lng (JS.ofZ 0) (JS.ofZ 0)) in
      match reply with
      | Fulfilled _ =>
          (setLoading false s1,
           [req; ToastSuccess "✓ Location updated successfully"])
      | Rejected detail =>
          (setLoading false s1,
           [req; ToastError (detail_or detail "Failed to update location")])
      end.

(** The message shown when the emergency request is rejected: the detail
    when it is a string, the fixed text otherwise. *)
Definition emergencyErrorMessage (detail : Detail) : string :=
  match detail with
  | DString d => if JS.truthy d then d else "Failed to send emergency alert"
  | _ => "Failed to send emergency alert"
  end.

Definition handleEmergency (user_id : string) (s : State) (reply : Reply unit)
  : State * list Effect :=
  if missing_input s then
    (s, [ToastError (DString "Please ensure bus and location are set")])
  else
    let s1 := setLoading true s in
    let req :=
      Post "/emergency"
           (EmergencyBody (selectedBus s) user_id
              (JS.parseFloat (latitude (location s)))
              (JS.parseFloat (longitude (location s)))
              (JS.or_else (emergencyDesc s)
                          "Emergency situation reported by driver")) in
    match reply with
    | Fulfilled _ =>
        (setLoading false (setEmergencyDesc "" s1),
         [req; ToastSuccess "Emergency alert sent to transport department"])
    | Rejected detail =>
        (setLoading false s1,
         [req; ToastError (DString (emergencyErrorMessage detail))])
    end.

End Driver.

(** ** The streaming connection, as [useWebSocket] exposes it

    [readyState] is 0 while connecting, 1 once open, 2 while closing and 3
    when closed; the hook reconnects by itself ([shouldReconnect]) and the
    component sees each change of [readyState] and each new
    [lastJsonMessage] as a re-render.  An effect runs after the first
    render and after every render in which one of its dependencies has
    changed; [sendJsonMessage] keeps its identity. *)

Definition subscribe (channel : string) : Json :=
  [("event", "subscribe"); ("channel", channel)].

(** The effect on [[readyState, sendJsonMessage]], the same in both
    dashboards. *)
Definition subscribeEffect (readyState : Z) : list Effect :=
  if (readyState =? 1)%Z then
    [WsSend (subscribe "bus_locations"); WsSend (subscribe "emergency_alerts")]
  else [].

(** ** TransportDashboard *)

Module Transport.

Record State : Type := mkState
  { buses : list Bus.t;
    alerts : list Alert.t;
    readyState : Z;
    lastJsonMessage : option Message }.

Definition setBuses (f : list Bus.t -> list Bus.t) (s : State) : State :=
  mkState (f (buses s)) (alerts s) (readyState s) (lastJsonMessage s).

Definition setAlerts (f : list Alert.t -> list Alert.t) (s : State) : State :=
  mkState (buses s) (f (alerts s)) (readyState s) (lastJsonMessage s).

(** The updater given to [setBuses] on a [location_update]. *)
Definition onLocationUpdate (data : LocationData.t) (prev : list Bus.t)
  : list Bus.t :=
  let index :=
    findIndex (fun b => String.eqb (Bus.id b) (LocationData.bus_id data)) prev in
  if (index >? -1)%Z then
    alter (Bus.with_status_location "active" (LocationData.last_location data))
          (Z.to_nat index) prev
  else prev.

(** The effect on [[lastJsonMessage]]. *)
Definition messageEffect (s : State) : State * list Effect :=
  match lastJsonMessage s with
  | Some (LocationUpdate data) => (setBuses (onLocationUpdate data) s, [])
  | Some (EmergencyAlert data) =>
      (setAlerts (fun prev => data :: prev) s,
       [ToastError (DString ("🚨 Emergency Alert: Bus " +:+ Alert.bus_number data))])
  | _ => (s, [])
  end.

Definition fetchBuses : list Effect := [Get "/buses"].
Definition fetchAlerts : list Effect := [Get "/emergency"].

(** The effect with no dependency: it runs once, after the first render. *)
Definition mountEffect : list Effect := fetchBuses ++ fetchAlerts.

Definition fetchBuses_settled (r : Reply (list Bus.t)) (s : State)
  : State * list Effect :=
  match r with
  | Fulfilled data => (setBuses (fun _ => data) s, [])
  | Rejected _ => (s, [ToastError (DString "Failed to fetch buses")])
  end.

Definition fetchAlerts_settled (r : Reply (list Alert.t)) (s : State)
  : State * list Effect :=
  match r with
  | Fulfilled data => (setAlerts (fun _ => data) s, [])
  | Rejected _ => (s, [ToastError (DString "Failed to fetch alerts")])
  end.

Definition handleToggleBusStatus (busId : string) (currentStatus : option string)
           (reply : Reply unit) : list Effect :=
  let newStatus :=
    match currentStatus with
    | Some st => if String.eqb st "active" then "inactive" else "active"
    | None => "active"
    end in
  let req := Patch ("/buses/" +:+ busId +:+ "/status?status=" +:+ newStatus) in
  match reply with
  | Fulfilled _ =>
      req :: ToastSuccess
               ("Bus " +:+ (if String.eqb newStatus "active" then "activated"
                            else "deactivated") +:+ " successfully")
          :: fetchBuses
  | Rejected detail =>
      [req; ToastError (detail_or detail "Failed to update bus status")]
  end.

Definition handleResolveAlert (alertId : string) (reply : Reply unit)
  : list Effect :=
  let req := Patch ("/emergency/" +:+ alertId +:+ "/resolve") in
  match reply with
  | Fulfilled _ => req :: ToastSuccess "Alert resolved" :: fetchAlerts
  | Rejected _ => [req; ToastError (DString "Failed to resolve alert")]
  end.

(** What can happen to the mounted component. *)
Inductive Event : Type :=
| Mount : Event
| ReadyState (rs : Z) : Event
| Receive (m : Message) : Event
| BusesFetched (r : Reply (list Bus.t)) : Event
| AlertsFetched (r : Reply (list Alert.t)) : Event
| ToggleBusStatus (busId : string) (currentStatus : option string)
                  (reply : Reply unit) : Event
| ResolveAlert (alertId : string) (reply : Reply unit) : Event.

Definition initial : State := mkState [] [] 0 None.

Definition step (s : State) (e : Event) : State * list Effect :=
  match e with
  | Mount =>
      let '(s', out) := messageEffect s in
      (s', subscribeEffect (readyState s) ++ mountEffect ++ out)
  | ReadyState rs =>
      let s' := mkState (buses s) (alerts s) rs (lastJsonMessage s) in
      if (rs =? readyState s)%Z then (s', []) else (s', subscribeEffect rs)
  | Receive m =>
      messageEffect (mkState (buses s) (alerts s) (readyState s) (Some m))
  | BusesFetched r => fetchBuses_settled r s
  | AlertsFetched r => fetchAlerts_settled r s
  | ToggleBusStatus busId currentStatus reply =>
      (s, handleToggleBusStatus busId currentStatus reply)
  | ResolveAlert alertId reply => (s, handleResolveAlert alertId reply)
  end.

Fixpoint run (s : State) (es : list Event) : State * list Effect :=
  match es with
  | [] => (s, [])
  | e :: rest =>
      let '(s1, out1) := step s e in
      let '(s2, out2) := run s1 rest in
      (s2, out1 ++ out2)
  end.

End Transport.

(** ** StudentDashboard *)

Module Student.

Record State : Type := mkState
  { buses : list Bus.t;
    readyState : Z;
    lastJsonMessage : option Message }.

Definition setBuses (f : list Bus.t -> list Bus.t) (s : State) : State :=
  mkState (f (buses s)) (readyState s) (lastJsonMessage s).

(** The entry built from a [location_update]: id, number, status and
    location, and no other field. *)
Definition newBus (data : LocationData.t) : Bus.t :=
  Bus.mk (LocationData.bus_id data) (LocationData.bus_number data)
         None None None (Some "active")
         (Some (LocationData.last_location data)).

(** The updater given to [setBuses] on a [location_update]. *)
Definition onLocationUpdate (data : LocationData.t) (prev : list Bus.t)
  : list Bus.t :=
  let index :=
    findIndex (fun b => String.eqb (Bus.id b) (LocationData.bus_id data)) prev in
  if (index >? -1)%Z then <[Z.to_nat index := newBus data]> prev
  else prev ++ [newBus data].

(** The effect on [[lastJsonMessage]]. *)
Definition messageEffect (s : State) : State * list Effect :=
  match lastJsonMessage s with
  | Some (LocationUpdate data) => (setBuses (onLocationUpdate data) s, [])
  | Some (EmergencyAlert data) =>
      (s, [ToastError (DString ("Emergency Alert: Bus " +:+ Alert.bus_number data))])
  | _ => (s, [])
  end.

(** The effect with no dependency: it runs once, after the first render. *)
Definition mountEffect : list Effect := [Get "/locations/latest"].

Definition fetchBuses_settled (r : Reply (list Bus.t)) (s : State)
  : State * list Effect :=
  match r with
  | Fulfilled data => (setBuses (fun _ => data) s, [])
  | Rejected _ => (s, [])
  end.

Inductive Event : Type :=
| Mount : Event
| ReadyState (rs : Z) : Event
| Receive (m : Message) : Event
| BusesFetched (r : Reply (list Bus.t)) : Event.

Definition initial : State := mkState [] 0 None.

Definition step (s : State) (e : Event) : State * list Effect :=
  match e with
  | Mount =>
      let '(s', out) := messageEffect s in
      (s', subscribeEffect (readyState s) ++ mountEffect ++ out)
  | ReadyState rs =>
      let s' := mkState (buses s) rs (lastJsonMessage s) in
      if (rs =? readyState s)%Z then (s', []) else (s', subscribeEffect rs)
  | Receive m => messageEffect (mkState (buses s) (readyState s) (Some m))
  | BusesFetched r => fetchBuses_settled r s
  end.

Fixpoint run (s : State) (es : list Event) : State * list Effect :=
  match es with
  | [] => (s, [])
  | e :: rest =>
      let '(s1, out1) := step s e in
      let '(s2, out2) := run s1 rest in
      (s2, out1 ++ out2)
  end.

End Student.

(** ** App: the role based routes *)

Module App.

(** The stored user object. *)
Record User : Type := mkUser
  { id : string;
    name : string;
    role : string }.

Inductive Element : Type :=
| Landing : Element
| StudentDashboard (user : User) : Element
| DriverDashboard (user : User) : Element
| TransportDashboard (user : User) : Element
| Navigate (to : string) : Element.

(** [user && user.role === r ? page : <Navigate to="/" />] *)
Definition guarded (user : option User) (r : string) (page : User -> Element)
  : Element :=
  match user with
  | Some u => if String.eqb (role u) r then page u else Navigate "/"
  | None => Navigate "/"
  end.

(** The [<Route>]s, in the order written. *)
Definition routes (user : option User) : list (string * Element) :=
  [ ("/", match user with
          | None => Landing
          | Some u => Navigate ("/" +:+ role u)
          end);
    ("/student", guarded user "student" StudentDashboard);
    ("/driver", guarded user "driver" DriverDashboard);
    ("/transport_dept", guarded user "transport_dept" TransportDashboard) ].

Definition lower (c : ascii) : ascii :=
  let n := nat_of_ascii c in
  if (Nat.leb 65 n && Nat.leb n 90)%bool then ascii_of_nat (n + 32) else c.

(** A path in lower case and without its trailing slashes. *)
Fixpoint canon (s : string) : string :=
  match s with
  | EmptyString => EmptyString
  | String c r =>
      let r' := canon r in
      if (Ascii.eqb c "/" && String.eqb r' "")%bool then EmptyString
      else String (lower c) r'
  end.

(** The router compares a route path with the location without regard to
    the case of the letters or to trailing slashes. *)
Definition matchPath (path pathname : string) : bool :=
  String.eqb (canon path) (canon pathname).

(** The element of the route whose path matches the location, if any. *)
Fixpoint matchRoutes (rs : list (string * Element)) (pathname : string)
  : option Element :=
  match rs with
  | [] => None
  | (path, element) :: rest =>
      if matchPath path pathname then Some element
      else matchRoutes rest pathname
  end.

(** What the visitor ends up with. *)
Inductive Outcome : Type :=
| Shows (page : Element) : Outcome
| Blank : Outcome
| Redirecting (to : string) : Outcome.

(** Renders the location and follows [Navigate] at most [fuel] times. *)
Fixpoint settle (fuel : nat) (user : option User) (pathname : string)
  : Outcome :=
  match matchRoutes (routes user) pathname with
  | None => Blank
  | Some (Navigate to) =>
      match fuel with
      | O => Redirecting to
      | S fuel' => settle fuel' user to
      end
  | Some page => Shows page
  end.

Definition is_dashboard (e : Element) : bool :=
  match e with
  | StudentDashboard _ | DriverDashboard _ | TransportDashboard _ => true
  | _ => false
  end.

End App.

(** ** Landing: the registration form *)

Module Landing.

Record FormData : Type := mkFormData
  { email : string;
    password : string;
    name : string;
    role : string;
    phone : string }.

Definition initialFormData : FormData := mkFormData "" "" "" "student" "".

(** The [<SelectItem>]s of the role selector: value and label. *)
Definition roleItems : list (string * string) :=
  [ ("student", "Student");
    ("driver", "Bus Driver");
    ("transport_dept", "Transport Department") ].

(** [onValueChange]: [{...formData, role: value}] *)
Definition setRole (value : string) (f : FormData) : FormData :=
  mkFormData (email f) (password f) (name f) value (phone f).

(** What the visitor can do to the form. *)
Inductive Edit : Type :=
| TypeEmail (v : string) : Edit
| TypePassword (v : string) : Edit
| TypeName (v : string) : Edit
| TypePhone (v : string) : Edit
| PickRole (item : nat) : Edit.

Definition edit (f : FormData) (e : Edit) : FormData :=
  match e with
  | TypeEmail v => mkFormData v (password f) (name f) (role f) (phone f)
  | TypePassword v => mkFormData (email f) v (name f) (role f) (phone f)
  | TypeName v => mkFormData (email f) (password f) v (role f) (phone f)
  | TypePhone v => mkFormData (email f) (password f) (name f) (role f) v
  | PickRole item =>
      match roleItems !! item with
      | Some (value, _) => setRole value f
      | None => f
      end
  end.

(** The request of [handleSubmit]. *)
Definition submit (isLogin : bool) (f : FormData) : Effect :=
  if isLogin then
    Post "/auth/login"
         (FormBody [("email", email f); ("password", password f)])
  else
    Post "/auth/register"
         (FormBody [("email", email f); ("password", password f);
                    ("name", name f); ("role", role f); ("phone", phone f)]).

End Landing.

(** ** DriverDashboard: the effects *)

Module DriverEffects.

Definition setSelectedBus (v : string) (s : Driver.State) : Driver.State :=
  Driver.mkState (Driver.buses s) v (Driver.location s) (Driver.emergencyDesc s)
                 (Driver.loading s) (Driver.busStatus s).

(** [b.driver_id === user.id || !b.driver_id] *)
Definition assigned (user_id : string) (b : Bus.t) : bool :=
  match Bus.driver_id b with
  | Some d => (String.eqb d user_id || negb (JS.truthy d))%bool
  | None => true
  end.

(** [b.status || 'inactive'] *)
Definition status_or_inactive (b : Bus.t) : string :=
  match Bus.status b with
  | Some st => JS.or_else st "inactive"
  | None => "inactive"
  end.

(** The effect on [[selectedBus, buses]]: the badge follows the bus
    selected, when the list holds it. *)
Definition selectionEffect (s : Driver.State) : Driver.State :=
  match List.find (fun b => String.eqb (Bus.id b) (Driver.selectedBus s))
                  (Driver.buses s) with
  | Some selected => Driver.setBusStatus (status_or_inactive selected) s
  | None => s
  end.

(** The request of the effect on [[user.id]]. *)
Definition fetchBuses : list Effect := [Get "/buses"].

(** What [fetchBuses] does once the request has settled, the selection
    effect included. *)
Definition fetchBuses_settled (user_id : string) (r : Reply (list Bus.t))
           (s : Driver.State) : Driver.State * list Effect :=
  match r with
  | Fulfilled data =>
      let driverBuses := List.filter (assigned user_id) data in
      let s1 := Driver.setBuses (fun _ => driverBuses) s in
      match driverBuses with
      | first :: _ =>
          (selectionEffect
             (Driver.setBusStatus (status_or_inactive first)
                                  (setSelectedBus (Bus.id first) s1)), [])
      | [] => (selectionEffect s1, [])
      end
  | Rejected _ => (s, [ToastError (DString "Failed to load buses")])
  end.

(** [onValueChange={setSelectedBus}], the selection effect included. *)
Definition onValueChange (v : string) (s : Driver.State) : Driver.State :=
  selectionEffect (setSelectedBus v s).

End DriverEffects.

(** ** [parseInt], without a radix *)

Module JSInt.

(** The value of a digit in the radix, if it is one. *)
Definition digit_of (radix : Z) (c : ascii) : option Z :=
  let n := Z.of_nat (nat_of_ascii c) in
  let v :=
    if ((48 <=? n) && (n <=? 57))%Z%bool then (n - 48)%Z
    else if ((97 <=? n) && (n <=? 122))%Z%bool then (n - 87)%Z
    else if ((65 <=? n) && (n <=? 90))%Z%bool then (n - 55)%Z
    else radix in
  if (v <? radix)%Z then Some v else None.

(** The longest run of digits: its value and its length. *)
Fixpoint int_digits (radix acc : Z) (n : nat) (s : string) : Z * nat :=
  match s with
  | String c r =>
      match digit_of radix c with
      | Some v => int_digits radix (radix * acc + v) (S n) r
      | None => (acc, n)
      end
  | EmptyString => (acc, n)
  end.

(** A leading [0x] or [0X] selects radix 16. *)
Definition radix_of (s : string) : Z * string :=
  match s with
  | String "0" (String c r) =>
      if (Ascii.eqb c "x" || Ascii.eqb c "X")%bool then (16%Z, r) else (10%Z, s)
  | _ => (10%Z, s)
  end.

(** The integer the digits denote, as a number (beyond twenty significant
    decimal digits an engine may round the digits first; the exact value is
    taken here). *)
Definition parseInt (input : string) : JS.jsnum :=
  let '(neg, s) := JS.sign (JS.skip_space input) in
  let '(radix, s') := radix_of s in
  let '(v, n) := int_digits radix 0 0 s' in
  match n with
  | O => JS.NaN
  | S _ => JS.round_double (inject_Z (if neg then - v else v))
  end.

End JSInt.

(** ** TransportDashboard: the form of a new bus and the counters *)

Module TransportForm.

Record NewBus : Type := mkNewBus
  { bus_number : string;
    capacity : string;
    route_name : string }.

Record Form : Type := mkForm
  { newBus : NewBus;
    showAddBus : bool }.

(** What the handler reads of a rejected request: [error.response?.status]
    and [error.response?.data?.detail]. *)
Record Failure : Type := mkFailure
  { status : option Z;
    detail : Detail }.

Inductive Settled : Type :=
| Created : Settled
| Failed (error : Failure) : Settled.

(** What the handler does to the outside world. *)
Inductive Action : Type :=
| Ui (e : Effect) : Action
| PostBus (bus_number : string) (capacity : JS.jsnum) (route_name : string) : Action
| LogoutLater (delay : Z) : Action.

(** [!newBus.bus_number || !newBus.capacity || !newBus.route_name] *)
Definition incomplete (b : NewBus) : bool :=
  (negb (JS.truthy (bus_number b))
   || negb (JS.truthy (capacity b))
   || negb (JS.truthy (route_name b)))%bool.

(** The message of the [catch] branch and whether the session is ended. *)
Definition errorMsg (error : Failure) : string * bool :=
  match status error with
  | Some 401%Z => ("Session expired. Please login again.", true)
  | Some 403%Z => ("You do not have permission to add buses", false)
  | _ =>
      match detail error with
      | DString d => (if JS.truthy d then d else "Failed to add bus", false)
      | _ => ("Failed to add bus", false)
      end
  end.

Definition handleAddBus (f : Form) (r : Settled) : Form * list Action :=
  if incomplete (newBus f) then
    (f, [Ui (ToastError (DString "Please fill all fields"))])
  else
    let req :=
      PostBus (bus_number (newBus f)) (JSInt.parseInt (capacity (newBus f)))
              (route_name (newBus f)) in
    match r with
    | Created =>
        (mkForm (mkNewBus "" "" "") false,
         req :: Ui (ToastSuccess "✓ Bus added successfully!")
             :: map Ui Transport.fetchBuses)
    | Failed error =>
        let '(msg, expired) := errorMsg error in
        (f, req :: (if expired then [LogoutLater 2000] else [])
                ++ [Ui (ToastError (DString msg))])
    end.

(** [alerts.filter(a => a.status === 'active').length] *)
Definition activeAlerts (alerts : list Alert.t) : nat :=
  length (List.filter (fun a => String.eqb (Alert.status a) "active") alerts).

End TransportForm.

(** ** The map and the lists of both dashboards *)

Module MapView.

(** [b.status === 'active'] *)
Definition isActive (b : Bus.t) : bool :=
  match Bus.status b with
  | Some st => String.eqb st "active"
  | None => false
  end.

(** [buses.filter(b => b.status === 'active' && b.last_location)]: the
    buses that get a marker. *)
Definition markers (buses : list Bus.t) : list Bus.t :=
  List.filter
    (fun b => (isActive b
               && match Bus.last_location b with Some _ => true | None => false end)%bool)
    buses.


(** Truthiness of a number: every number but zero and NaN. *)
Definition truthy_num (x : JS.jsnum) : bool :=
  match x with
  | JS.NaN => false
  | JS.Fin q => negb (Qeq_bool q 0)
  | _ => true
  end.

(** [bus.last_location?.latitude && bus.last_location?.longitude] *)
Definition located (b : Bus.t) : bool :=
  match Bus.last_location b with
  | Some l => (truthy_num (Loc.latitude l) && truthy_num (Loc.longitude l))%bool
  | None => false
  end.

(** What a widget asks of the map. *)
Inductive MapCall : Type :=
| FitBounds (bounds : list (JS.jsnum * JS.jsnum)) : MapCall
| SetView (lat lng : JS.jsnum) (zoom : Z) : MapCall.

(** The points of the located buses, [last_location] being there. *)
Definition points (buses : list Bus.t) : list (JS.jsnum * JS.jsnum) :=
  omap (fun b => match Bus.last_location b with
                 | Some l => Some (Loc.latitude l, Loc.longitude l)
                 | None => None
                 end)
       (List.filter located buses).

(** The effect of [MapBounds], on the buses it is given. *)
Definition MapBounds (buses : list Bus.t) : list MapCall :=
  match buses with
  | [] => []
  | _ :: _ =>
      match points buses with
      | [] => []
      | bounds => [FitBounds bounds]
      end
  end.




(** The map of the student dashboard after a render: the markers, and
    what [MapBounds] does with them. *)
Definition studentBounds (buses : list Bus.t) : list MapCall :=
  MapBounds (markers buses).

End MapView.

(** ** App: the session *)

Module Session.

Section Codec.

(** [JSON.stringify] and [JSON.parse] on the user object; [parse] gives
    nothing where [JSON.parse] throws. *)
Variable stringify : App.User -> string.
Variable parse : string -> option App.User.

(** The state of [App] and the browser storage beside it. *)
Record State : Type := mkState
  { user : option App.User;
    localStorage : gmap string string }.

Definition handleLogin (userData : App.User) (token : string) (s : State) : State :=
  mkState (Some userData)
          (<["user" := stringify userData]> (<["token" := token]> (localStorage s))).

Definition handleLogout (s : State) : State :=
  mkState None (delete "user" (delete "token" (localStorage s))).

(** [getItem] gives null for a missing key; null and the empty string are
    falsy. *)
Definition present (storage : gmap string string) (key : string) : option string :=
  match storage !! key with
  | Some v => if JS.truthy v then Some v else None
  | None => None
  end.

(** The effect of [App] after the first render: the stored user, when a
    token and a user are stored; nothing when the stored user does not
    parse and the effect throws. *)
Definition mountEffect (s : State) : option State :=
  match present (localStorage s) "token", present (localStorage s) "user" with
  | Some _, Some storedUser =>
      match parse storedUser with
      | Some u => Some (mkState (Some u) (localStorage s))
      | None => None
      end
  | _, _ => Some s
  end.

(** A page load: the state starts without user, on the storage left. *)
Definition reload (s : State) : option State :=
  mountEffect (mkState None (localStorage s)).

(** The request interceptor, on the headers of a request. *)
Definition interceptor (storage : gmap string string)
           (headers : gmap string string) : gmap string string :=
  match present storage "token" with
  | Some token => <["Authorization" := "Bearer " +:+ token]> headers
  | None => headers
  end.

End Codec.

End Session.

(** ** Landing: [handleSubmit] *)

Module LandingSubmit.

(** An item of a validation error array: its [msg] and [message]. *)
Record ErrItem : Type := mkErrItem
  { msg : option string;
    message : option string }.

(** What [error.response?.data?.detail] can be for the form. *)
Inductive AuthDetail : Type :=
| ADFalsy : AuthDetail
| ADString (s : string) : AuthDetail
| ADArray (items : list ErrItem) : AuthDetail
| ADObject (msg : option string) : AuthDetail.

Inductive AuthReply : Type :=
| AuthOk (user : App.User) (access_token : string) : AuthReply
| AuthFailed (detail : AuthDetail) : AuthReply.

(** [a || b] where [a] may be missing. *)
Definition opt_or (a : option string) (b : string) : string :=
  match a with
  | Some v => JS.or_else v b
  | None => b
  end.

(** [err.msg || err.message || 'Validation error'] *)
Definition itemText (err : ErrItem) : string :=
  opt_or (msg err) (opt_or (message err) "Validation error").

Definition errorMessage (detail : AuthDetail) : string :=
  match detail with
  | ADFalsy => "Authentication failed"
  | ADString s => if JS.truthy s then s else "Authentication failed"
  | ADArray items => String.concat ", " (map itemText items)
  | ADObject (Some m) => if JS.truthy m then m else "Authentication failed"
  | ADObject None => "Authentication failed"
  end.

(** The effects of [handleSubmit] and the arguments [onLogin] is called
    with, if it is. *)
Definition handleSubmit (isLogin : bool) (f : Landing.FormData) (reply : AuthReply)
  : list Effect * option (App.User * string) :=
  let req := Landing.submit isLogin f in
  match reply with
  | AuthOk u token =>
      ([req; ToastSuccess (if isLogin then "Login successful!"
                           else "Registration successful!")],
       Some (u, token))
  | AuthFailed detail =>
      ([req; ToastError (DString (errorMessage detail))], None)
  end.

End LandingSubmit.

(** ** Vocabulary of the statements *)

(** [x] is a number of the closed interval [[lo, hi]]. *)
Definition within (lo hi : Z) (x : JS.jsnum) : Prop :=
  match x with
  | JS.Fin q => (inject_Z lo <= q)%Q /\ (q <= inject_Z hi)%Q
  | _ => False
  end.

(** [parseFloat(location.latitude)] and [parseFloat(location.longitude)]
    of the driver's form. *)
Definition parsedLat (s : Driver.State) : JS.jsnum :=
  JS.parseFloat (Driver.latitude (Driver.location s)).

Definition parsedLng (s : Driver.State) : JS.jsnum :=
  JS.parseFloat (Driver.longitude (Driver.location s)).

(** The HTTP requests among the effects of a handler. *)
Definition requests (out : list Effect) : list Effect :=
  List.filter is_request out.

(** The subscribe messages among the effects of a step. *)
Definition sent (out : list Effect) : list Json :=
  omap (fun e => match e with WsSend m => Some m | _ => None end) out.

(** The snapshot fetches among the effects of a step. *)
Definition fetched (out : list Effect) : list string :=
  omap (fun e => match e with Get url => Some url | _ => None end) out.

(** The channels of the streaming endpoint. *)
Definition channels : list string := ["bus_locations"; "emergency_alerts"].

(** The roles of the system. *)
Definition roles : list string := ["student"; "driver"; "transport_dept"].

(** What [findIndex] returns: [-1] when no element satisfies [p], the
    position of the first one that does otherwise. *)
Inductive findIndex_result {A : Type} (p : A -> bool) (l : list A) : Z -> Prop :=
| findIndex_none :
    (forall x, x ∈ l -> p x = false) -> findIndex_result p l (-1)
| findIndex_first (k : nat) (x : A) :
    l !! k = Some x -> p x = true ->
    (forall j y, (j < k)%nat -> l !! j = Some y -> p y = false) ->
    findIndex_result p l (Z.of_nat k).

(** The ids of a bus list, in order. *)
Definition ids (l : list Bus.t) : list string := Bus.id <$> l.

(** The entry a [location_update] touches, when there is one: the first
    that carries the id of the update. *)
Definition first_entry (data : LocationData.t) (prev : list Bus.t)
           (k : nat) (old : Bus.t) : Prop :=
  prev !! k = Some old /\ Bus.id old = LocationData.bus_id data
  /\ forall j y, (j < k)%nat -> prev !! j = Some y ->
                 Bus.id y <> LocationData.bus_id data.

(** [busStatus === 'active' ? 'inactive' : 'active'] *)
Definition toggled (st : string) : string :=
  if String.eqb st "active" then "inactive" else "active".

(** The dashboard of a user, by role. *)
Definition dashboard (u : App.User) : App.Element :=
  if String.eqb (App.role u) "student" then App.StudentDashboard u
  else if String.eqb (App.role u) "driver" then App.DriverDashboard u
  else App.TransportDashboard u.

(** The paths of the four routes. *)
Definition paths : list string := "/" :: ((fun r => "/" +:+ r) <$> roles).

(** A connection that has been open and is lost: the component mounts,
    the connection opens, closes, and the hook connects again. *)
Definition transport_lost : list Transport.Event :=
  [Transport.Mount; Transport.ReadyState 1; Transport.ReadyState 3;
   Transport.ReadyState 0].

Definition student_lost : list Student.Event :=
  [Student.Mount; Student.ReadyState 1; Student.ReadyState 3;
   Student.ReadyState 0].

(** A logged-in user whose role is none of the three. *)
Definition stranger : App.User := App.mkUser "u9" "Eve" "admin".

(** The states of the scenario: bus B1 selected, the form holding the
    coordinates as typed. *)
Definition typed (latitude longitude description : string) : Driver.State :=
  Driver.mkState [] "B1" (Driver.mkCoords latitude longitude) description
                 false "active".

(** A fleet of two buses, the first one inactive, and a report for it. *)
Definition fleet : list Bus.t :=
  [ Bus.mk "B1" "101" (Some "Main Campus Route") (Some 50%Z) (Some "D1")
           (Some "inactive") None;
    Bus.mk "B2" "102" (Some "North Route") (Some 40%Z) None
           (Some "active")
           (Some (Loc.mk (JS.ofZ 28) (JS.ofZ 77) (JS.ofZ 0) "09:00")) ].

Definition report (bus_id : string) : LocationData.t :=
  LocationData.mk bus_id "101" (JS.Fin (Qmake 57 2)) (JS.Fin (Qmake 309 4))
                  (JS.ofZ 30) "09:05".

(** A snapshot of the buses that holds one entry per bus. *)
Definition transport_keyed (e : Transport.Event) : Prop :=
  match e with
  | Transport.BusesFetched (Fulfilled data) => NoDup (ids data)
  | _ => True
  end.

Definition student_keyed (e : Student.Event) : Prop :=
  match e with
  | Student.BusesFetched (Fulfilled data) => NoDup (ids data)
  | _ => True
  end.

(** A number that is neither zero nor NaN. *)
Definition nonzero (x : JS.jsnum) : Prop :=
  match x with
  | JS.NaN => False
  | JS.Fin q => ~ (q == 0)%Q
  | _ => True
  end.

(** An active bus reported on the equator. *)
Definition equator : Bus.t :=
  Bus.mk "B3" "103" None None None (Some "active")
         (Some (Loc.mk (JS.ofZ 0) (JS.ofZ 77) (JS.ofZ 0) "09:10")).

(** A user, and a codec that knows this user only: enough to run the
    session on an example. *)
Definition asha : App.User := App.mkUser "u1" "Asha" "driver".

Definition stringify_asha (u : App.User) : string :=
  "{id:" +:+ App.id u +:+ ",name:" +:+ App.name u
  +:+ ",role:" +:+ App.role u +:+ "}".

Definition parse_asha (text : string) : option App.User :=
  if String.eqb text (stringify_asha asha) then Some asha else None.

(** [next] is the bus list of a dashboard that held [prev] when the
    [location_update] message [data] arrived: the message has gone through
    the message effect of the transport or of the student dashboard. *)
Definition received (data : LocationData.t) (prev next : list Bus.t) : Prop :=
  (exists s,
      Transport.buses s = prev
      /\ next = Transport.buses
                  (fst (Transport.step s (Transport.Receive (LocationUpdate data)))))
  \/ (exists s,
         Student.buses s = prev
         /\ next = Student.buses
                     (fst (Student.step s (Student.Receive (LocationUpdate data))))).

(** A snapshot that lists bus B1 twice. *)
Definition twice_listed : list Bus.t :=
  [ Bus.mk "B1" "101" (Some "Main Campus Route") (Some 50%Z) (Some "D1")
           (Some "active")
           (Some (Loc.mk (JS.ofZ 28) (JS.ofZ 77) (JS.ofZ 0) "09:00"));
    Bus.mk "B1" "101" (Some "Main Campus Route") (Some 50%Z) (Some "D1")
           (Some "active")
           (Some (Loc.mk (JS.ofZ 28) (JS.ofZ 77) (JS.ofZ 0) "09:00")) ].

(** The dashboards receive that snapshot and then a report for bus B1. *)
Definition transport_twice : list Transport.Event :=
  [Transport.BusesFetched (Fulfilled twice_listed);
   Transport.Receive (LocationUpdate (report "B1"))].

Definition student_twice : list Student.Event :=
  [Student.BusesFetched (Fulfilled twice_listed);
   Student.Receive (LocationUpdate (report "B1"))].

(** ** Numbers *)

Lemma Qltb_lt (a b : Q) : JS.Qltb a b = true <-> (a < b)%Q.
Proof.
  unfold JS.Qltb. rewrite negb_true_iff. split.
  - intros H. apply Qnot_le_lt. intros Hle.
    apply Qle_bool_iff in Hle. congruence.
  - intros H. destruct (Qle_bool b a) eqn:E; [|reflexivity].
    apply Qle_bool_iff in E. exfalso. exact (Qlt_not_le _ _ H E).
Qed.

Lemma Qltb_ge (a b : Q) : JS.Qltb a b = false <-> (b <= a)%Q.
Proof.
  unfold JS.Qltb. rewrite negb_false_iff. apply Qle_bool_iff.
Qed.

(** The two comparisons of a range check pass exactly on the numbers of
    the closed interval. *)
Lemma range_check (lo hi : Z) (x : JS.jsnum) :
  JS.isNaN x = false ->
  (JS.lt x (JS.ofZ lo) || JS.gt x (JS.ofZ hi))%bool = false <-> within lo hi x.
Proof.
  intros Hnan. unfold JS.gt, JS.ofZ.
  destruct x as [| |q|]; simpl in *; try discriminate.
  - split; [discriminate | tauto].
  - rewrite orb_false_iff, !Qltb_ge. tauto.
  - split; [discriminate | tauto].
Qed.

Lemma range_check_fails (lo hi : Z) (x : JS.jsnum) :
  JS.isNaN x = false -> ~ within lo hi x ->
  (JS.lt x (JS.ofZ lo) || JS.gt x (JS.ofZ hi))%bool = true.
Proof.
  intros Hnan Hout.
  destruct (JS.lt x (JS.ofZ lo) || JS.gt x (JS.ofZ hi))%bool eqn:E; [reflexivity|].
  exfalso. apply Hout. now apply range_check.
Qed.

Lemma truthy_nonempty (s : string) : JS.truthy s = true <-> s <> "".
Proof. destruct s; simpl; split; congruence. Qed.

Lemma parseFloat_number_truthy (s : string) :
  JS.isNaN (JS.parseFloat s) = false -> JS.truthy s = true.
Proof. destruct s; [discriminate | reflexivity]. Qed.

Lemma or_else_nonempty (a b : string) : b <> "" -> JS.or_else a b <> "".
Proof.
  intros Hb. unfold JS.or_else. destruct (JS.truthy a) eqn:E; [|exact Hb].
  now apply truthy_nonempty.
Qed.

(** ** DriverDashboard *)

Section DriverHandlers.

Variable s : Driver.State.
Variable reply : Reply unit.

Local Abbreviation lat := (parsedLat s).
Local Abbreviation lng := (parsedLng s).

Lemma missing_input_false :
  Driver.selectedBus s <> "" ->
  JS.isNaN lat = false -> JS.isNaN lng = false ->
  Driver.missing_input s = false.
Proof.
  intros Hbus Hlat Hlng. unfold Driver.missing_input.
  apply truthy_nonempty in Hbus. rewrite Hbus.
  rewrite (parseFloat_number_truthy _ Hlat), (parseFloat_number_truthy _ Hlng).
  reflexivity.
Qed.

(** An update one of whose coordinates is not a number of its range is
    refused with an error toast: no request, no change of state. *)
Lemma handleUpdateLocation_out_of_range :
  ~ within (-90) 90 lat \/ ~ within (-180) 180 lng ->
  exists msg, Driver.handleUpdateLocation s reply = (s, [ToastError (DString msg)]).
Proof.
  intros Hout. unfold Driver.handleUpdateLocation.
  destruct (Driver.missing_input s); [eexists; reflexivity|].
  fold (parsedLat s) (parsedLng s).
  destruct (JS.isNaN lat || JS.isNaN lng)%bool eqn:Enan; [eexists; reflexivity|].
  apply orb_false_iff in Enan as [Hlat Hlng].
  destruct (JS.lt lat (JS.ofZ (-90)) || JS.gt lat (JS.ofZ 90))%bool eqn:Ela;
    [eexists; reflexivity|].
  apply range_check in Ela; [|exact Hlat].
  destruct Hout as [Hout|Hout]; [contradiction|].
  rewrite (range_check_fails _ _ _ Hlng Hout). eexists; reflexivity.
Qed.

(** An update for a selected bus whose coordinates are in range is sent,
    with the parsed coordinates and a zero speed and heading. *)
Lemma handleUpdateLocation_in_range :
  Driver.selectedBus s <> "" ->
  within (-90) 90 lat -> within (-180) 180 lng ->
  exists msg,
    Driver.handleUpdateLocation s reply =
      (Driver.setLoading false s,
       [Post "/locations"
             (LocationBody (Driver.selectedBus s) lat lng (JS.ofZ 0) (JS.ofZ 0));
        msg])
    /\ is_request msg = false.
Proof.
  intros Hbus Hla Hln.
  assert (Hlat : JS.isNaN lat = false) by (destruct lat; simpl in *; tauto).
  assert (Hlng : JS.isNaN lng = false) by (destruct lng; simpl in *; tauto).
  unfold Driver.handleUpdateLocation.
  rewrite (missing_input_false Hbus Hlat Hlng). fold (parsedLat s) (parsedLng s).
  rewrite Hlat, Hlng. cbn [orb].
  apply range_check in Hla, Hln; try assumption.
  rewrite Hla, Hln.
  destruct reply; eexists; split; reflexivity.
Qed.

(** The emergency handler checks presence only: whatever the coordinates
    parse to, the request leaves. *)
Lemma handleEmergency_sends (user_id : string) :
  Driver.missing_input s = false ->
  exists s' msg,
    Driver.handleEmergency user_id s reply =
      (s',
       [Post "/emergency"
             (EmergencyBody (Driver.selectedBus s) user_id lat lng
                (JS.or_else (Driver.emergencyDesc s)
                           "Emergency situation reported by driver"));
        msg])
    /\ is_request msg = false.
Proof.
  intros Hin. unfold Driver.handleEmergency. rewrite Hin. fold (parsedLat s) (parsedLng s).
  destruct reply; do 2 eexists; split; reflexivity.
Qed.

End DriverHandlers.

(** C2.  A location report whose latitude is not a number of [-90, 90] or
    whose longitude is not a number of [-180, 180] is refused with an error
    message: no request is issued and the state is left as it was.  The
    bounds themselves are accepted, and a report for the selected bus whose
    coordinates are in range is posted to [/locations] with exactly these
    coordinates. *)
Theorem handleUpdateLocation_validates_bounds
        (s : Driver.State) (reply : Reply unit) :
  (~ within (-90) 90 (parsedLat s) \/ ~ within (-180) 180 (parsedLng s) ->
   exists msg,
     Driver.handleUpdateLocation s reply = (s, [ToastError (DString msg)])
     /\ requests (snd (Driver.handleUpdateLocation s reply)) = [])
  /\ (within (-90) 90 (parsedLat s) /\ within (-180) 180 (parsedLng s) ->
      Driver.selectedBus s <> "" ->
      requests (snd (Driver.handleUpdateLocation s reply)) =
        [Post "/locations"
              (LocationBody (Driver.selectedBus s) (parsedLat s) (parsedLng s)
                            (JS.ofZ 0) (JS.ofZ 0))]).
Proof.
  split.
  - intros Hout.
    destruct (handleUpdateLocation_out_of_range s reply Hout) as [msg E].
    exists msg. rewrite E. split; reflexivity.
  - intros [Hla Hln] Hbus.
    destruct (handleUpdateLocation_in_range s reply Hbus Hla Hln) as (msg & E & Hmsg).
    rewrite E. unfold requests. simpl. rewrite Hmsg. reflexivity.
Qed.

Lemma handleUpdateLocation_validates_bounds_witness :
  (exists msg,
     Driver.handleUpdateLocation (typed "999" "0" "") (Fulfilled tt) =
       (typed "999" "0" "", [ToastError (DString msg)])
     /\ requests (snd (Driver.handleUpdateLocation (typed "999" "0" "")
                                                   (Fulfilled tt))) = [])
  /\ requests (snd (Driver.handleUpdateLocation (typed "28.7" "77.1" "")
                                                (Fulfilled tt))) =
       [Post "/locations"
             (LocationBody "B1" (JS.parseFloat "28.7") (JS.parseFloat "77.1")
                           (JS.ofZ 0) (JS.ofZ 0))]
  /\ requests (snd (Driver.handleUpdateLocation (typed "-90" "180" "")
                                                (Fulfilled tt))) =
       [Post "/locations"
             (LocationBody "B1" (JS.ofZ (-90)) (JS.ofZ 180) (JS.ofZ 0) (JS.ofZ 0))].
Proof.
  split; [|split].
  - apply (handleUpdateLocation_validates_bounds (typed "999" "0" "") (Fulfilled tt)).
    left. intros [_ H]. vm_compute in H. apply H. reflexivity.
  - apply (handleUpdateLocation_validates_bounds (typed "28.7" "77.1" "") (Fulfilled tt));
      [|discriminate].
    vm_compute. repeat split; discriminate.
  - apply (handleUpdateLocation_validates_bounds (typed "-90" "180" "") (Fulfilled tt));
      [|discriminate].
    vm_compute. repeat split; discriminate.
Defined.

(** C1.  The emergency handler sends a report whose latitude is out of
    range: with bus B1 selected and the form holding 999 and 0, the request
    to [/emergency] leaves with latitude 999, where the location handler
    refuses the same form. *)
Theorem handleEmergency_sends_out_of_range :
  ~ within (-90) 90 (parsedLat (typed "999" "0" ""))
  /\ Driver.handleEmergency "D1" (typed "999" "0" "") (Fulfilled tt) =
       (typed "999" "0" "",
        [Post "/emergency"
              (EmergencyBody "B1" "D1" (JS.ofZ 999) (JS.ofZ 0)
                             "Emergency situation reported by driver");
         ToastSuccess "Emergency alert sent to transport department"])
  /\ Driver.handleUpdateLocation (typed "999" "0" "") (Fulfilled tt) =
       (typed "999" "0" "",
        [ToastError (DString "Latitude must be between -90 and 90")]).
Proof.
  split; [|split]; try reflexivity.
  intros [_ H]. vm_compute in H. apply H. reflexivity.
Qed.

(** The other two handlers of the driver dashboard send nothing to
    [/emergency]. *)
Lemma no_other_emergency (s : Driver.State) (reply : Reply unit) (body : Body) :
  ~ In (Post "/emergency" body) (snd (Driver.handleUpdateLocation s reply))
  /\ ~ In (Post "/emergency" body) (snd (Driver.handleBusStatusToggle s reply)).
Proof.
  split.
  - unfold Driver.handleUpdateLocation.
    repeat match goal with
           | |- context [if ?c then _ else _] => destruct c
           end;
      try destruct reply; cbn; intros H;
      repeat (destruct H as [H|H]; [discriminate|]); exact H.
  - unfold Driver.handleBusStatusToggle.
    destruct (negb (JS.truthy (Driver.selectedBus s)));
      try destruct reply; cbn; intros H;
      repeat (destruct H as [H|H]; [discriminate|]); exact H.
Qed.

(** C10.  An emergency report that leaves the driver dashboard, whichever
    handler has run, carries a non-empty description, the text entered when
    there is one and the default text otherwise; once the request has
    succeeded the description input is empty again. *)
Theorem handleEmergency_description
        (user_id : string) (s : Driver.State) (reply : Reply unit)
        (out : list Effect) (body : Body) :
  out = snd (Driver.handleEmergency user_id s reply)
  \/ out = snd (Driver.handleUpdateLocation s reply)
  \/ out = snd (Driver.handleBusStatusToggle s reply) ->
  In (Post "/emergency" body) out ->
  exists bus driver la lo desc,
    out = snd (Driver.handleEmergency user_id s reply)
    /\ body = EmergencyBody bus driver la lo desc
    /\ desc <> ""
    /\ (Driver.emergencyDesc s <> "" -> desc = Driver.emergencyDesc s)
    /\ (Driver.emergencyDesc s = "" ->
        desc = "Emergency situation reported by driver")
    /\ (forall u, reply = Fulfilled u ->
        Driver.emergencyDesc (fst (Driver.handleEmergency user_id s reply)) = "").
Proof.
  intros [->|[->| ->]] Hin;
    [|exfalso; exact (proj1 (no_other_emergency s reply body) Hin)
     |exfalso; exact (proj2 (no_other_emergency s reply body) Hin)].
  destruct (Driver.missing_input s) eqn:Emiss.
  - unfold Driver.handleEmergency in Hin. rewrite Emiss in Hin.
    simpl in Hin. destruct Hin as [Hin|[]]. discriminate.
  - destruct (handleEmergency_sends s reply user_id Emiss) as (s' & msg & E & Hmsg).
    rewrite E in Hin. simpl in Hin.
    destruct Hin as [Hin|[Hin|[]]]; [|subst msg; discriminate].
    injection Hin as <-.
    do 5 eexists. split; [reflexivity|]. split; [reflexivity|].
    split; [apply or_else_nonempty; discriminate|].
    split; [|split].
    + intros Hne. apply truthy_nonempty in Hne.
      unfold JS.or_else. now rewrite Hne.
    + intros He. unfold JS.or_else. now rewrite He.
    + intros u ->. unfold Driver.handleEmergency. rewrite Emiss. reflexivity.
Qed.

Lemma handleEmergency_description_witness :
  (exists bus driver la lo,
      EmergencyBody "B1" "D1" (JS.parseFloat "28.7") (JS.parseFloat "77.1")
                    "Flat tyre" = EmergencyBody bus driver la lo "Flat tyre")
  /\ Driver.emergencyDesc
       (fst (Driver.handleEmergency "D1" (typed "28.7" "77.1" "Flat tyre")
                                    (Fulfilled tt))) = "".
Proof.
  destruct (handleEmergency_description
              "D1" (typed "28.7" "77.1" "Flat tyre") (Fulfilled tt) _
              (EmergencyBody "B1" "D1" (JS.parseFloat "28.7") (JS.parseFloat "77.1")
                             "Flat tyre")
              (or_introl eq_refl) (or_introl eq_refl))
    as (bus & driver & la & lo & desc & _ & Hbody & _ & Hdesc & _ & Hreset).
  split.
  - exists bus, driver, la, lo.
    assert (desc = "Flat tyre") as -> by (apply Hdesc; discriminate).
    exact Hbody.
  - exact (Hreset tt eq_refl).
Defined.

(** ** [findIndex] *)

Section FindIndex.

Context {A : Type} (p : A -> bool).

Lemma findIndexFrom_cases (l : list A) (i : Z) :
  (findIndexFrom p i l = (-1)%Z /\ forall x, x ∈ l -> p x = false)
  \/ exists k x,
      findIndexFrom p i l = (i + Z.of_nat k)%Z
      /\ l !! k = Some x /\ p x = true
      /\ forall j y, (j < k)%nat -> l !! j = Some y -> p y = false.
Proof.
  revert i. induction l as [|a l IH]; intros i; simpl.
  - left. split; [reflexivity|]. intros x Hx. inversion Hx.
  - destruct (p a) eqn:Ea.
    + right. exists 0%nat, a. repeat split; [lia|assumption|]. intros j y Hj. lia.
    + destruct (IH (i + 1)%Z) as [[E Hall]|(k & x & E & Hk & Hx & Hfirst)].
      * left. split; [exact E|]. intros x Hx.
        apply elem_of_cons in Hx as [->|Hx]; [exact Ea | now apply Hall].
      * right. exists (S k), x. repeat split; [lia|exact Hk|exact Hx|].
        intros [|j] y Hj Hy; simpl in Hy; [congruence|].
        apply (Hfirst j y); [lia | exact Hy].
Qed.

Lemma findIndex_spec (l : list A) : findIndex_result p l (findIndex p l).
Proof.
  unfold findIndex.
  destruct (findIndexFrom_cases l 0) as [[E Hall]|(k & x & E & Hk & Hx & Hfirst)];
    rewrite E.
  - now constructor.
  - rewrite Z.add_0_l. econstructor; eassumption.
Qed.

End FindIndex.

(** ** The [location_update] handlers on the bus list *)

Section LocationUpdate.

Variable data : LocationData.t.
Variable prev : list Bus.t.

Local Abbreviation bid := (LocationData.bus_id data).
Local Abbreviation same_id := (fun b : Bus.t => String.eqb (Bus.id b) bid).
Local Abbreviation refreshed :=
  (Bus.with_status_location "active" (LocationData.last_location data)).

Lemma same_id_true (b : Bus.t) : same_id b = true <-> Bus.id b = bid.
Proof. apply String.eqb_eq. Qed.

Lemma same_id_false (b : Bus.t) : same_id b = false <-> Bus.id b <> bid.
Proof. apply String.eqb_neq. Qed.

Lemma unknown_id_no_entry :
  bid ∉ ids prev -> forall x, x ∈ prev -> same_id x = false.
Proof.
  intros Hnot x Hx. apply same_id_false. intros E. apply Hnot.
  unfold ids. rewrite <- E. now apply list_elem_of_fmap_2.
Qed.

Lemma no_entry_unknown_id :
  (forall x, x ∈ prev -> same_id x = false) -> bid ∉ ids prev.
Proof.
  intros Hall Hin. unfold ids in Hin.
  apply list_elem_of_fmap in Hin as (b & E & Hb).
  apply Hall, same_id_false in Hb. congruence.
Qed.

Lemma entry_id_known (l : list Bus.t) (k : nat) (b : Bus.t) :
  l !! k = Some b -> Bus.id b ∈ ids l.
Proof.
  intros Hk. unfold ids. eapply list_elem_of_fmap_2, list_elem_of_lookup_2, Hk.
Qed.

Lemma first_entry_known (k : nat) (old : Bus.t) :
  first_entry data prev k old -> bid ∈ ids prev.
Proof. intros (Hk & <- & _). eapply entry_id_known, Hk. Qed.

Lemma first_entry_unique (k k' : nat) (old old' : Bus.t) :
  first_entry data prev k old -> first_entry data prev k' old' -> k = k'.
Proof.
  intros (Hk & Hid & Hmin) (Hk' & Hid' & Hmin').
  destruct (Nat.lt_trichotomy k k') as [Hlt|[E|Hgt]]; [|exact E|].
  - exfalso. exact (Hmin' k old Hlt Hk Hid).
  - exfalso. exact (Hmin k' old' Hgt Hk' Hid').
Qed.

Lemma alter_insert (f : Bus.t -> Bus.t) (k : nat) (old : Bus.t) (l : list Bus.t) :
  l !! k = Some old -> alter f k l = <[k := f old]> l.
Proof.
  intros Hk. apply list_eq. intros j.
  destruct (decide (k = j)) as [<-|Hne].
  - rewrite list_lookup_alter_eq, Hk.
    rewrite list_lookup_insert_eq; [reflexivity|]. eapply lookup_lt_Some, Hk.
  - now rewrite list_lookup_alter_ne, list_lookup_insert_ne.
Qed.

Lemma transport_cases :
  ((bid ∉ ids prev) /\ Transport.onLocationUpdate data prev = prev)
  \/ exists k old,
      first_entry data prev k old
      /\ Transport.onLocationUpdate data prev = <[k := refreshed old]> prev.
Proof.
  unfold Transport.onLocationUpdate.
  destruct (findIndex_spec same_id prev) as [Hall|k x Hk Hx Hfirst].
  - left. split; [now apply no_entry_unknown_id | reflexivity].
  - right. exists k, x. split.
    + split; [exact Hk|]. split; [now apply same_id_true|].
      intros j y Hj Hy. apply same_id_false. eapply Hfirst; eassumption.
    + replace (Z.of_nat k >? -1)%Z with true by (symmetry; apply Z.gtb_lt; lia).
      rewrite Nat2Z.id. now apply alter_insert.
Qed.

Lemma student_cases :
  ((bid ∉ ids prev)
   /\ Student.onLocationUpdate data prev = prev ++ [Student.newBus data])
  \/ exists k old,
      first_entry data prev k old
      /\ Student.onLocationUpdate data prev = <[k := Student.newBus data]> prev.
Proof.
  unfold Student.onLocationUpdate.
  destruct (findIndex_spec same_id prev) as [Hall|k x Hk Hx Hfirst].
  - left. split; [now apply no_entry_unknown_id | reflexivity].
  - right. exists k, x. split.
    + split; [exact Hk|]. split; [now apply same_id_true|].
      intros j y Hj Hy. apply same_id_false. eapply Hfirst; eassumption.
    + replace (Z.of_nat k >? -1)%Z with true by (symmetry; apply Z.gtb_lt; lia).
      now rewrite Nat2Z.id.
Qed.

Lemma ids_insert_same (k : nat) (old new : Bus.t) :
  prev !! k = Some old -> Bus.id new = Bus.id old ->
  ids (<[k := new]> prev) = ids prev.
Proof.
  intros Hk Hid. unfold ids. apply list_eq. intros j.
  rewrite !list_lookup_fmap.
  destruct (decide (k = j)) as [<-|Hne].
  - rewrite list_lookup_insert_eq by (eapply lookup_lt_Some, Hk).
    rewrite Hk. simpl. now rewrite Hid.
  - now rewrite list_lookup_insert_ne.
Qed.

(** The transport dashboard never changes which ids the list holds. *)
Lemma transport_ids : ids (Transport.onLocationUpdate data prev) = ids prev.
Proof.
  destruct transport_cases as [[_ ->]|(k & old & (Hk & Hid & _) & ->)];
    [reflexivity|].
  now apply ids_insert_same with old.
Qed.

(** The student dashboard adds the id of the update when it is new. *)
Lemma student_ids :
  ids (Student.onLocationUpdate data prev) =
    if decide (bid ∈ ids prev) then ids prev else ids prev ++ [bid].
Proof.
  destruct student_cases as [[Hnot ->]|(k & old & (Hk & Hid & _) & ->)].
  - rewrite decide_False by exact Hnot. unfold ids. now rewrite fmap_app.
  - rewrite decide_True.
    + apply ids_insert_same with old; [exact Hk | now rewrite Hid].
    + rewrite <- Hid. eapply entry_id_known, Hk.
Qed.

(** One entry per id: both handlers keep the list that way. *)
Lemma transport_NoDup :
  NoDup (ids prev) -> NoDup (ids (Transport.onLocationUpdate data prev)).
Proof. now rewrite transport_ids. Qed.

Lemma student_NoDup :
  NoDup (ids prev) -> NoDup (ids (Student.onLocationUpdate data prev)).
Proof.
  intros Hnd. rewrite student_ids. case_decide; [exact Hnd|].
  apply NoDup_app. split; [exact Hnd|]. split.
  - intros x Hx Hx'. apply list_elem_of_singleton in Hx'. now subst.
  - apply NoDup_singleton.
Qed.



End LocationUpdate.

Section LocationUpdateClaims.

Variable data : LocationData.t.
Variable prev : list Bus.t.

Local Abbreviation bid := (LocationData.bus_id data).




End LocationUpdateClaims.



Section Overwrite.

Variable data : LocationData.t.
Variable prev : list Bus.t.

Local Abbreviation bid := (LocationData.bus_id data).

(** In a list with one entry per id, the entry of a bus is found at one
    position only. *)
Lemma one_entry (l : list Bus.t) (j k : nat) (b b' : Bus.t) :
  NoDup (ids l) -> l !! j = Some b -> l !! k = Some b' ->
  Bus.id b = Bus.id b' -> j = k.
Proof.
  intros Hnd Hj Hk Hid.
  apply (NoDup_lookup (ids l) j k (Bus.id b) Hnd); unfold ids;
    rewrite list_lookup_fmap; [rewrite Hj | rewrite Hk]; simpl; congruence.
Qed.

Lemma transport_overwrites :
  bid ∈ ids prev ->
  exists k old,
    first_entry data prev k old
    /\ Transport.onLocationUpdate data prev !! k =
         Some (Bus.with_status_location "active"
                 (LocationData.last_location data) old).
Proof.
  intros Hin.
  destruct (transport_cases data prev) as [[Hnot _]|(k & old & Hfirst & ->)];
    [contradiction|].
  exists k, old. split; [exact Hfirst|].
  apply list_lookup_insert_eq. eapply lookup_lt_Some, Hfirst.
Qed.

Lemma student_overwrites :
  bid ∈ ids prev ->
  exists k old,
    first_entry data prev k old
    /\ Student.onLocationUpdate data prev !! k = Some (Student.newBus data).
Proof.
  intros Hin.
  destruct (student_cases data prev) as [[Hnot _]|(k & old & Hfirst & ->)];
    [contradiction|].
  exists k, old. split; [exact Hfirst|].
  apply list_lookup_insert_eq. eapply lookup_lt_Some, Hfirst.
Qed.

Lemma transport_length :
  length (Transport.onLocationUpdate data prev) = length prev.
Proof.
  rewrite <- (length_fmap Bus.id (Transport.onLocationUpdate data prev)).
  fold (ids (Transport.onLocationUpdate data prev)).
  rewrite transport_ids. apply length_fmap.
Qed.

Lemma student_length :
  bid ∈ ids prev -> length (Student.onLocationUpdate data prev) = length prev.
Proof.
  intros Hin.
  rewrite <- (length_fmap Bus.id (Student.onLocationUpdate data prev)).
  fold (ids (Student.onLocationUpdate data prev)).
  rewrite student_ids, decide_True by exact Hin. apply length_fmap.
Qed.

End Overwrite.

(** C4.  When a dashboard receives a location update for a bus of its
    list, the length of the list stays as it was and the first entry of
    that bus is overwritten: it carries the [last_location] made of the
    latitude, longitude, speed and timestamp of the update, whatever it held
    before, and every other position keeps its entry.  In a list that holds
    one entry per bus the resulting list holds exactly one entry for that
    bus, the overwritten one.  This on both dashboards. *)
Theorem location_update_overwrites
        (data : LocationData.t) (prev next : list Bus.t) :
  LocationData.bus_id data ∈ ids prev ->
  received data prev next ->
  length next = length prev
  /\ exists k old b,
      first_entry data prev k old
      /\ next !! k = Some b
      /\ Bus.id b = LocationData.bus_id data
      /\ Bus.last_location b =
           Some (Loc.mk (LocationData.latitude data) (LocationData.longitude data)
                        (LocationData.speed data) (LocationData.timestamp data))
      /\ (forall j, j <> k -> next !! j = prev !! j)
      /\ (NoDup (ids prev) ->
          forall j b', next !! j = Some b' ->
                       Bus.id b' = LocationData.bus_id data -> j = k).
Proof.
  intros Hin [(s & <- & ->)|(s & <- & ->)].
  - change (Transport.buses
              (fst (Transport.step s (Transport.Receive (LocationUpdate data)))))
      with (Transport.onLocationUpdate data (Transport.buses s)).
    split; [apply transport_length|].
    destruct (transport_cases data (Transport.buses s))
      as [[Hnot _]|(k & old & Hfirst & E)]; [contradiction|].
    pose proof Hfirst as (Hk & Hid & _).
    assert (Ek : Transport.onLocationUpdate data (Transport.buses s) !! k
                 = Some (Bus.with_status_location
                           "active" (LocationData.last_location data) old)).
    { rewrite E. apply list_lookup_insert_eq. eapply lookup_lt_Some, Hk. }
    exists k, old.
    eexists. split; [exact Hfirst|]. split; [exact Ek|].
    split; [exact Hid|]. split; [reflexivity|]. split.
    + intros j Hj. rewrite E. now apply list_lookup_insert_ne.
    + intros Hnd j b' Hj Hb'.
      apply (one_entry _ j k _ _ (transport_NoDup data _ Hnd) Hj Ek).
      simpl. congruence.
  - change (Student.buses
              (fst (Student.step s (Student.Receive (LocationUpdate data)))))
      with (Student.onLocationUpdate data (Student.buses s)).
    split; [now apply student_length|].
    destruct (student_cases data (Student.buses s))
      as [[Hnot _]|(k & old & Hfirst & E)]; [contradiction|].
    pose proof Hfirst as (Hk & Hid & _).
    assert (Ek : Student.onLocationUpdate data (Student.buses s) !! k
                 = Some (Student.newBus data)).
    { rewrite E. apply list_lookup_insert_eq. eapply lookup_lt_Some, Hk. }
    exists k, old.
    eexists. split; [exact Hfirst|]. split; [exact Ek|].
    split; [reflexivity|]. split; [reflexivity|]. split.
    + intros j Hj. rewrite E. now apply list_lookup_insert_ne.
    + intros Hnd j b' Hj Hb'.
      apply (one_entry _ j k _ _ (student_NoDup data _ Hnd) Hj Ek).
      simpl. congruence.
Qed.

Lemma location_update_overwrites_witness :
  length (Transport.buses
            (fst (Transport.step (Transport.mkState fleet [] 1 None)
                                 (Transport.Receive (LocationUpdate (report "B2"))))))
  = length fleet
  /\ exists k old b,
      first_entry (report "B2") fleet k old
      /\ Transport.buses
           (fst (Transport.step (Transport.mkState fleet [] 1 None)
                                (Transport.Receive (LocationUpdate (report "B2")))))
         !! k = Some b
      /\ Bus.id b = "B2"
      /\ Bus.last_location b =
           Some (Loc.mk (JS.Fin (Qmake 57 2)) (JS.Fin (Qmake 309 4))
                        (JS.ofZ 30) "09:05")
      /\ (forall j, j <> k ->
                    Transport.buses
                      (fst (Transport.step (Transport.mkState fleet [] 1 None)
                                           (Transport.Receive
                                              (LocationUpdate (report "B2")))))
                    !! j = fleet !! j)
      /\ (NoDup (ids fleet) ->
          forall j b',
            Transport.buses
              (fst (Transport.step (Transport.mkState fleet [] 1 None)
                                   (Transport.Receive (LocationUpdate (report "B2")))))
            !! j = Some b' ->
            Bus.id b' = "B2" -> j = k).
Proof.
  apply (location_update_overwrites (report "B2") fleet).
  - unfold ids. simpl. apply elem_of_cons. right. apply elem_of_cons. left. reflexivity.
  - left. exists (Transport.mkState fleet [] 1 None). split; reflexivity.
Defined.

(** C4, as stated, fails on a list that holds a bus twice, as a snapshot
    may: the update overwrites the first entry only, so that the list still
    holds two entries for the bus, the second one with the place it had. *)
Lemma location_update_keeps_second_entry :
  ids twice_listed = ["B1"; "B1"]
  /\ ids (Transport.buses (fst (Transport.run Transport.initial transport_twice)))
     = ["B1"; "B1"]
  /\ Bus.last_location
       <$> (Transport.buses (fst (Transport.run Transport.initial transport_twice))
            !! 0%nat)
     = Some (Some (LocationData.last_location (report "B1")))
  /\ Bus.last_location
       <$> (Transport.buses (fst (Transport.run Transport.initial transport_twice))
            !! 1%nat)
     = Some (Some (Loc.mk (JS.ofZ 28) (JS.ofZ 77) (JS.ofZ 0) "09:00"))
  /\ ids (Student.buses (fst (Student.run Student.initial student_twice)))
     = ["B1"; "B1"]
  /\ Bus.last_location
       <$> (Student.buses (fst (Student.run Student.initial student_twice)) !! 0%nat)
     = Some (Some (LocationData.last_location (report "B1")))
  /\ Bus.last_location
       <$> (Student.buses (fst (Student.run Student.initial student_twice)) !! 1%nat)
     = Some (Some (Loc.mk (JS.ofZ 28) (JS.ofZ 77) (JS.ofZ 0) "09:00")).
Proof. repeat split. Qed.

(** The bus list of a dashboard changes in two ways only: a location
    update is applied to it, or a snapshot replaces it. *)
Lemma transport_step_buses (s : Transport.State) (e : Transport.Event) :
  Transport.buses (fst (Transport.step s e)) = Transport.buses s
  \/ (exists data,
         Transport.buses (fst (Transport.step s e))
         = Transport.onLocationUpdate data (Transport.buses s))
  \/ (exists data,
         e = Transport.BusesFetched (Fulfilled data)
         /\ Transport.buses (fst (Transport.step s e)) = data).
Proof.
  destruct e as [|rs|m|r|r|busId st reply|alertId reply]; cbn [Transport.step].
  - unfold Transport.messageEffect.
    destruct (Transport.lastJsonMessage s) as [[d|d|ev]|]; cbn; eauto.
  - destruct (rs =? Transport.readyState s)%Z; cbn; eauto.
  - destruct m as [d|d|ev]; cbn; eauto.
  - destruct r as [data|detail]; cbn; eauto.
  - destruct r as [data|detail]; cbn; eauto.
  - cbn; eauto.
  - cbn; eauto.
Qed.

Lemma student_step_buses (s : Student.State) (e : Student.Event) :
  Student.buses (fst (Student.step s e)) = Student.buses s
  \/ (exists data,
         Student.buses (fst (Student.step s e))
         = Student.onLocationUpdate data (Student.buses s))
  \/ (exists data,
         e = Student.BusesFetched (Fulfilled data)
         /\ Student.buses (fst (Student.step s e)) = data).
Proof.
  destruct e as [|rs|m|r]; cbn [Student.step].
  - unfold Student.messageEffect.
    destruct (Student.lastJsonMessage s) as [[d|d|ev]|]; cbn; eauto.
  - destruct (rs =? Student.readyState s)%Z; cbn; eauto.
  - destruct m as [d|d|ev]; cbn; eauto.
  - destruct r as [data|detail]; cbn; eauto.
Qed.




(** ** The streaming connection and the snapshot *)

Lemma sent_app (a b : list Effect) : sent (a ++ b) = sent a ++ sent b.
Proof. apply omap_app. Qed.

Lemma fetched_app (a b : list Effect) : fetched (a ++ b) = fetched a ++ fetched b.
Proof. apply omap_app. Qed.

Lemma sent_subscribeEffect (rs : Z) :
  sent (subscribeEffect rs) =
    if (rs =? 1)%Z then [subscribe "bus_locations"; subscribe "emergency_alerts"]
    else [].
Proof. unfold subscribeEffect. now destruct (rs =? 1)%Z. Qed.

Lemma fetched_subscribeEffect (rs : Z) : fetched (subscribeEffect rs) = [].
Proof. unfold subscribeEffect. now destruct (rs =? 1)%Z. Qed.

Lemma transport_messageEffect_quiet (s : Transport.State) :
  sent (snd (Transport.messageEffect s)) = []
  /\ fetched (snd (Transport.messageEffect s)) = [].
Proof.
  unfold Transport.messageEffect.
  destruct (Transport.lastJsonMessage s) as [[d|d|e]|]; split; reflexivity.
Qed.

Lemma student_messageEffect_quiet (s : Student.State) :
  sent (snd (Student.messageEffect s)) = []
  /\ fetched (snd (Student.messageEffect s)) = [].
Proof.
  unfold Student.messageEffect.
  destruct (Student.lastJsonMessage s) as [[d|d|e]|]; split; reflexivity.
Qed.

(** What a step of the transport dashboard sends on the connection. *)
Lemma transport_step_sent (s : Transport.State) (e : Transport.Event) :
  sent (snd (Transport.step s e)) =
    match e with
    | Transport.Mount => sent (subscribeEffect (Transport.readyState s))
    | Transport.ReadyState rs =>
        if (rs =? Transport.readyState s)%Z then [] else sent (subscribeEffect rs)
    | _ => []
    end.
Proof.
  destruct e as [|rs|m| r | r |busId st reply|alertId reply]; cbn [Transport.step].
  - pose proof (proj1 (transport_messageEffect_quiet s)) as Hq.
    destruct (Transport.messageEffect s) as [s' out]. cbn [snd] in *.
    rewrite !sent_app, Hq. cbn. apply app_nil_r.
  - now destruct (rs =? Transport.readyState s)%Z.
  - apply transport_messageEffect_quiet.
  - now destruct r.
  - now destruct r.
  - now destruct reply.
  - now destruct reply.
Qed.

(** What a step of the student dashboard sends on the connection. *)
Lemma student_step_sent (s : Student.State) (e : Student.Event) :
  sent (snd (Student.step s e)) =
    match e with
    | Student.Mount => sent (subscribeEffect (Student.readyState s))
    | Student.ReadyState rs =>
        if (rs =? Student.readyState s)%Z then [] else sent (subscribeEffect rs)
    | _ => []
    end.
Proof.
  destruct e as [|rs|m|r]; cbn [Student.step].
  - pose proof (proj1 (student_messageEffect_quiet s)) as Hq.
    destruct (Student.messageEffect s) as [s' out]. cbn [snd] in *.
    rewrite !sent_app, Hq. cbn. apply app_nil_r.
  - now destruct (rs =? Student.readyState s)%Z.
  - apply student_messageEffect_quiet.
  - now destruct r.
Qed.

Lemma subscribe_shape (rs : Z) (m : Json) :
  m ∈ sent (subscribeEffect rs) ->
  exists channel, channel ∈ channels
                  /\ m = [("event", "subscribe"); ("channel", channel)].
Proof.
  rewrite sent_subscribeEffect. destruct (rs =? 1)%Z; intros Hm.
  - apply elem_of_cons in Hm as [->|Hm].
    + exists "bus_locations". split; [|reflexivity]. unfold channels. repeat constructor.
    + apply elem_of_cons in Hm as [->|Hm]; [|inversion Hm].
      exists "emergency_alerts". split; [|reflexivity]. unfold channels. repeat constructor.
  - inversion Hm.
Qed.

Lemma transport_run_sent (es : list Transport.Event) (s : Transport.State) (m : Json) :
  m ∈ sent (snd (Transport.run s es)) ->
  exists channel, channel ∈ channels
                  /\ m = [("event", "subscribe"); ("channel", channel)].
Proof.
  revert s. induction es as [|e es IH]; intros s; simpl.
  - intros Hm. inversion Hm.
  - pose proof (transport_step_sent s e) as Hstep.
    destruct (Transport.step s e) as [s1 out1].
    destruct (Transport.run s1 es) as [s2 out2] eqn:E2. simpl in *.
    rewrite sent_app, Hstep. intros Hm. apply elem_of_app in Hm as [Hm|Hm].
    + destruct e; try (inversion Hm; fail).
      * eapply subscribe_shape, Hm.
      * destruct (rs =? Transport.readyState s)%Z; [inversion Hm|].
        eapply subscribe_shape, Hm.
    + apply (IH s1). now rewrite E2.
Qed.

Lemma student_run_sent (es : list Student.Event) (s : Student.State) (m : Json) :
  m ∈ sent (snd (Student.run s es)) ->
  exists channel, channel ∈ channels
                  /\ m = [("event", "subscribe"); ("channel", channel)].
Proof.
  revert s. induction es as [|e es IH]; intros s; simpl.
  - intros Hm. inversion Hm.
  - pose proof (student_step_sent s e) as Hstep.
    destruct (Student.step s e) as [s1 out1].
    destruct (Student.run s1 es) as [s2 out2] eqn:E2. simpl in *.
    rewrite sent_app, Hstep. intros Hm. apply elem_of_app in Hm as [Hm|Hm].
    + destruct e; try (inversion Hm; fail).
      * eapply subscribe_shape, Hm.
      * destruct (rs =? Student.readyState s)%Z; [inversion Hm|].
        eapply subscribe_shape, Hm.
    + apply (IH s1). now rewrite E2.
Qed.

(** C6.  Whatever happens to a dashboard, every message it sends on the
    streaming connection is [{event: "subscribe", channel: c}] with [c] one
    of [bus_locations] and [emergency_alerts]; each time [readyState]
    becomes 1 the dashboard sends one such message per channel, and a change
    to any other value sends nothing. *)
Theorem subscribe_on_open :
  (forall s es m,
      m ∈ sent (snd (Transport.run s es)) ->
      exists channel, channel ∈ channels
                      /\ m = [("event", "subscribe"); ("channel", channel)])
  /\ (forall s es m,
         m ∈ sent (snd (Student.run s es)) ->
         exists channel, channel ∈ channels
                         /\ m = [("event", "subscribe"); ("channel", channel)])
  /\ (forall s, Transport.readyState s <> 1%Z ->
                sent (snd (Transport.step s (Transport.ReadyState 1)))
                = subscribe <$> channels)
  /\ (forall s, Student.readyState s <> 1%Z ->
                sent (snd (Student.step s (Student.ReadyState 1)))
                = subscribe <$> channels)
  /\ (forall s rs, rs <> 1%Z ->
                   sent (snd (Transport.step s (Transport.ReadyState rs))) = [])
  /\ (forall s rs, rs <> 1%Z ->
                   sent (snd (Student.step s (Student.ReadyState rs))) = []).
Proof.
  repeat split.
  - intros s es m. apply transport_run_sent.
  - intros s es m. apply student_run_sent.
  - intros s Hrs. rewrite transport_step_sent.
    destruct (1 =? Transport.readyState s)%Z eqn:E; [|reflexivity].
    apply Z.eqb_eq in E. congruence.
  - intros s Hrs. rewrite student_step_sent.
    destruct (1 =? Student.readyState s)%Z eqn:E; [|reflexivity].
    apply Z.eqb_eq in E. congruence.
  - intros s rs Hrs. rewrite transport_step_sent, sent_subscribeEffect.
    apply Z.eqb_neq in Hrs. rewrite Hrs.
    destruct (rs =? Transport.readyState s)%Z; reflexivity.
  - intros s rs Hrs. rewrite student_step_sent, sent_subscribeEffect.
    apply Z.eqb_neq in Hrs. rewrite Hrs.
    destruct (rs =? Student.readyState s)%Z; reflexivity.
Qed.

Lemma subscribe_on_open_witness :
  sent (snd (Transport.step (fst (Transport.run Transport.initial transport_lost))
                            (Transport.ReadyState 1)))
  = [ [("event", "subscribe"); ("channel", "bus_locations")];
      [("event", "subscribe"); ("channel", "emergency_alerts")] ]
  /\ sent (snd (Student.step Student.initial (Student.ReadyState 1)))
     = [ [("event", "subscribe"); ("channel", "bus_locations")];
         [("event", "subscribe"); ("channel", "emergency_alerts")] ]
  /\ sent (snd (Transport.step Transport.initial (Transport.ReadyState 3))) = [].
Proof.
  split; [|split].
  - apply subscribe_on_open. discriminate.
  - apply subscribe_on_open. discriminate.
  - apply subscribe_on_open. discriminate.
Defined.

(** However often the connection is lost and opens again, no snapshot is
    requested. *)
Lemma transport_readyState_run (rss : list Z) (s : Transport.State) :
  fetched (snd (Transport.run s (Transport.ReadyState <$> rss))) = [].
Proof.
  revert s. induction rss as [|rs rss IH]; intros s; [reflexivity|].
  rewrite fmap_cons. cbn [Transport.run Transport.step].
  destruct (rs =? Transport.readyState s)%Z;
    match goal with
    | |- context [Transport.run ?s1 _] =>
        specialize (IH s1); destruct (Transport.run s1 _) as [s2 out2]
    end; cbn [snd] in *;
    rewrite fetched_app, IH, ?fetched_subscribeEffect; reflexivity.
Qed.

Lemma student_readyState_run (rss : list Z) (s : Student.State) :
  fetched (snd (Student.run s (Student.ReadyState <$> rss))) = [].
Proof.
  revert s. induction rss as [|rs rss IH]; intros s; [reflexivity|].
  rewrite fmap_cons. cbn [Student.run Student.step].
  destruct (rs =? Student.readyState s)%Z;
    match goal with
    | |- context [Student.run ?s1 _] =>
        specialize (IH s1); destruct (Student.run s1 _) as [s2 out2]
    end; cbn [snd] in *;
    rewrite fetched_app, IH, ?fetched_subscribeEffect; reflexivity.
Qed.

(** C5, as the code has it.  When a dashboard mounts it requests its
    snapshot, [/buses] and [/emergency] on the transport dashboard and
    [/locations/latest] on the student dashboard, before anything it sends
    on a connection that is still to open, and the answer replaces the bus
    list; a change of [readyState], a reconnection among them, requests no
    snapshot, however many of them follow one another. *)
Theorem snapshot_on_mount :
  (forall s, fetched (snd (Transport.step s Transport.Mount))
             = ["/buses"; "/emergency"])
  /\ (forall s, fetched (snd (Student.step s Student.Mount))
                = ["/locations/latest"])
  /\ (forall es, exists out,
         snd (Transport.run Transport.initial (Transport.Mount :: es))
         = Get "/buses" :: Get "/emergency" :: out)
  /\ (forall es, exists out,
         snd (Student.run Student.initial (Student.Mount :: es))
         = Get "/locations/latest" :: out)
  /\ (forall s data,
         Transport.buses
           (fst (Transport.step s (Transport.BusesFetched (Fulfilled data)))) = data)
  /\ (forall s data,
         Student.buses
           (fst (Student.step s (Student.BusesFetched (Fulfilled data)))) = data)
  /\ (forall s rs,
         fetched (snd (Transport.step s (Transport.ReadyState rs))) = [])
  /\ (forall s rs,
         fetched (snd (Student.step s (Student.ReadyState rs))) = [])
  /\ (forall s rss,
         fetched (snd (Transport.run s (Transport.ReadyState <$> rss))) = [])
  /\ (forall s rss,
         fetched (snd (Student.run s (Student.ReadyState <$> rss))) = []).
Proof.
  repeat split; try (intros s rss; apply transport_readyState_run);
    try (intros s rss; apply student_readyState_run).
  - intros s. cbn [Transport.step].
    pose proof (proj2 (transport_messageEffect_quiet s)) as Hq.
    destruct (Transport.messageEffect s) as [s' out]. cbn [snd] in *.
    now rewrite !fetched_app, fetched_subscribeEffect, Hq.
  - intros s. cbn [Student.step].
    pose proof (proj2 (student_messageEffect_quiet s)) as Hq.
    destruct (Student.messageEffect s) as [s' out]. cbn [snd] in *.
    now rewrite !fetched_app, fetched_subscribeEffect, Hq.
  - intros es. cbn.
    destruct (Transport.run Transport.initial es) as [s2 out2]. eauto.
  - intros es. cbn.
    destruct (Student.run Student.initial es) as [s2 out2]. eauto.
  - intros s rs. cbn [Transport.step].
    destruct (rs =? Transport.readyState s)%Z; [reflexivity|].
    apply fetched_subscribeEffect.
  - intros s rs. cbn [Student.step].
    destruct (rs =? Student.readyState s)%Z; [reflexivity|].
    apply fetched_subscribeEffect.
Qed.

(** C5, as stated, fails: when a connection that was lost opens again the
    dashboards subscribe again and request no snapshot; over the whole
    history the snapshot has been requested once, at mount. *)
Lemma reconnect_requests_no_snapshot :
  sent (snd (Transport.step (fst (Transport.run Transport.initial transport_lost))
                            (Transport.ReadyState 1)))
  = subscribe <$> channels
  /\ fetched (snd (Transport.step (fst (Transport.run Transport.initial transport_lost))
                                  (Transport.ReadyState 1))) = []
  /\ fetched (snd (Transport.run Transport.initial
                                 (transport_lost ++ [Transport.ReadyState 1])))
     = ["/buses"; "/emergency"]
  /\ sent (snd (Student.step (fst (Student.run Student.initial student_lost))
                             (Student.ReadyState 1)))
     = subscribe <$> channels
  /\ fetched (snd (Student.step (fst (Student.run Student.initial student_lost))
                                (Student.ReadyState 1))) = []
  /\ fetched (snd (Student.run Student.initial
                               (student_lost ++ [Student.ReadyState 1])))
     = ["/locations/latest"].
Proof. repeat split. Qed.

(** ** Roles: registration and routes *)

Lemma role_cases (r : string) :
  r ∈ roles <-> r = "student" \/ r = "driver" \/ r = "transport_dept".
Proof.
  unfold roles. rewrite !elem_of_cons, elem_of_nil. tauto.
Qed.

(** Editing the form never leaves the three roles. *)
Lemma edit_role (f : Landing.FormData) (e : Landing.Edit) :
  Landing.role f ∈ roles -> Landing.role (Landing.edit f e) ∈ roles.
Proof.
  intros Hf. destruct e as [v|v|v|v|item]; try exact Hf.
  destruct item as [|[|[|item]]]; cbn; try exact Hf; apply role_cases; tauto.
Qed.

Lemma edits_role (es : list Landing.Edit) (f : Landing.FormData) :
  Landing.role f ∈ roles -> Landing.role (foldl Landing.edit f es) ∈ roles.
Proof.
  revert f. induction es as [|e es IH]; intros f Hf; [exact Hf|].
  apply IH, edit_role, Hf.
Qed.

(** The guard of a dashboard route, once the route has matched: the page
    is a dashboard only if somebody is logged in with the role of the
    route. *)
Ltac guarded_route user :=
  let u := fresh "u" in
  let Er := fresh "Er" in
  destruct user as [u|]; [|intros [= <-]; discriminate];
  match goal with
  | |- context [String.eqb (App.role u) ?r] =>
      destruct (String.eqb (App.role u) r) eqn:Er;
      intros [= <-]; [|discriminate];
      intros _; exists u; apply String.eqb_eq in Er; rewrite Er;
      repeat split; try reflexivity; apply role_cases; tauto
  end.

(** A route that renders a dashboard renders the one of the user's role. *)
Lemma dashboard_route (user : option App.User) (pathname : string) (page : App.Element) :
  App.matchRoutes (App.routes user) pathname = Some page ->
  App.is_dashboard page = true ->
  exists u, user = Some u /\ App.role u ∈ roles /\ page = dashboard u.
Proof.
  unfold App.routes, App.matchRoutes, App.guarded, dashboard.
  destruct (App.matchPath "/" pathname).
  { destruct user; intros [= <-]; discriminate. }
  destruct (App.matchPath "/student" pathname); [guarded_route user|].
  destruct (App.matchPath "/driver" pathname); [guarded_route user|].
  destruct (App.matchPath "/transport_dept" pathname); [guarded_route user|].
  discriminate.
Qed.

Lemma settle_unfold (fuel : nat) (user : option App.User) (pathname : string) :
  App.settle fuel user pathname =
    match App.matchRoutes (App.routes user) pathname with
    | None => App.Blank
    | Some (App.Navigate to) =>
        match fuel with
        | O => App.Redirecting to
        | S fuel' => App.settle fuel' user to
        end
    | Some page => App.Shows page
    end.
Proof. destruct fuel; reflexivity. Qed.

Lemma settle_dashboard (fuel : nat) (user : option App.User) (pathname : string)
      (page : App.Element) :
  App.settle fuel user pathname = App.Shows page ->
  App.is_dashboard page = true ->
  exists u, user = Some u /\ App.role u ∈ roles /\ page = dashboard u.
Proof.
  revert pathname. induction fuel as [|fuel IH]; intros pathname;
    rewrite settle_unfold;
    destruct (App.matchRoutes (App.routes user) pathname) as [e|] eqn:E;
    try discriminate.
  - destruct e; try discriminate; intros [= <-] Hd;
      destruct (dashboard_route _ _ _ E Hd) as (u & -> & Hr & Hp); eauto.
  - destruct e; try (apply IH); intros [= <-] Hd;
      destruct (dashboard_route _ _ _ E Hd) as (u & -> & Hr & Hp); eauto.
Qed.

(** What a route renders: the landing page, for a visitor who is not
    logged in; a dashboard; or a redirection. *)
Lemma route_element (user : option App.User) (pathname : string) (e : App.Element) :
  App.matchRoutes (App.routes user) pathname = Some e ->
  (e = App.Landing /\ user = None)
  \/ App.is_dashboard e = true
  \/ exists to, e = App.Navigate to.
Proof.
  unfold App.routes, App.matchRoutes, App.guarded.
  destruct (App.matchPath "/" pathname).
  { destruct user; intros [= <-]; eauto. }
  destruct (App.matchPath "/student" pathname).
  { destruct user as [u|]; [destruct (String.eqb (App.role u) "student")|];
      intros [= <-]; eauto. }
  destruct (App.matchPath "/driver" pathname).
  { destruct user as [u|]; [destruct (String.eqb (App.role u) "driver")|];
      intros [= <-]; eauto. }
  destruct (App.matchPath "/transport_dept" pathname).
  { destruct user as [u|]; [destruct (String.eqb (App.role u) "transport_dept")|];
      intros [= <-]; eauto. }
  discriminate.
Qed.

(** The page a visitor ends on is the landing page, and then nobody is
    logged in, or a dashboard. *)
Lemma settle_shows (fuel : nat) (user : option App.User) (pathname : string)
      (page : App.Element) :
  App.settle fuel user pathname = App.Shows page ->
  (page = App.Landing /\ user = None) \/ App.is_dashboard page = true.
Proof.
  revert pathname. induction fuel as [|fuel IH]; intros pathname;
    rewrite settle_unfold;
    destruct (App.matchRoutes (App.routes user) pathname) as [e|] eqn:E;
    try discriminate;
    destruct (route_element _ _ _ E) as [[-> ->]|[Hd|[to ->]]];
    try discriminate.
  - intros [= <-]. now left.
  - destruct e; try discriminate; intros [= <-]; now right.
  - intros [= <-]. now left.
  - destruct e; try discriminate; intros [= <-]; now right.
  - apply IH.
Qed.

(** C7.  The role selector offers the three roles and no other, so that a
    registration request carries one of them.  A route renders a dashboard
    only for a user whose role is one of the three, and then the dashboard
    of that role; each dashboard route redirects anybody else to [/], the
    route of the landing page, which is shown when nobody is logged in.
    From each of the four routes a visitor who is not logged in ends on the
    landing page and a user with one of the three roles on the dashboard of
    the role.  A user who is logged in never ends on the landing page, and
    one whose role is none of the three ends on no page at all. *)
Theorem role_routing :
  fst <$> Landing.roleItems = roles
  /\ (forall edits,
         Landing.role (foldl Landing.edit Landing.initialFormData edits) ∈ roles)
  /\ (forall f, Landing.submit false f =
                Post "/auth/register"
                     (FormBody [("email", Landing.email f);
                                ("password", Landing.password f);
                                ("name", Landing.name f);
                                ("role", Landing.role f);
                                ("phone", Landing.phone f)]))
  /\ (forall fuel user pathname page,
         App.settle fuel user pathname = App.Shows page ->
         App.is_dashboard page = true ->
         exists u, user = Some u /\ App.role u ∈ roles /\ page = dashboard u)
  /\ (forall user r,
         r ∈ roles -> (forall u, user = Some u -> App.role u <> r) ->
         App.matchRoutes (App.routes user) ("/" +:+ r) = Some (App.Navigate "/"))
  /\ App.matchRoutes (App.routes None) "/" = Some App.Landing
  /\ (forall u, App.matchRoutes (App.routes (Some u)) "/"
                = Some (App.Navigate ("/" +:+ App.role u)))
  /\ (forall fuel pathname,
         pathname ∈ paths -> App.settle (S fuel) None pathname = App.Shows App.Landing)
  /\ (forall fuel u pathname,
         App.role u ∈ roles -> pathname ∈ paths ->
         App.settle (S (S fuel)) (Some u) pathname = App.Shows (dashboard u))
  /\ (forall fuel u pathname,
         App.settle fuel (Some u) pathname <> App.Shows App.Landing)
  /\ (forall fuel u pathname page,
         (App.role u ∉ roles) ->
         App.settle fuel (Some u) pathname <> App.Shows page).
Proof.
  split; [reflexivity|]. split.
  { intros edits. apply edits_role. apply role_cases. now left. }
  split; [reflexivity|]. split; [apply settle_dashboard|]. split.
  { intros user r Hr Hother. apply role_cases in Hr as [->|[->| ->]];
      (destruct user as [u|]; [|reflexivity]);
      specialize (Hother u eq_refl); apply String.eqb_neq in Hother;
      cbn; unfold App.guarded; now rewrite Hother. }
  split; [reflexivity|]. split; [reflexivity|]. split.
  { intros fuel pathname Hp. unfold paths, roles in Hp. cbn in Hp.
    rewrite !elem_of_cons, elem_of_nil in Hp.
    destruct Hp as [->|[->|[->|[->|[]]]]];
      repeat (rewrite settle_unfold; cbv -[App.settle]); reflexivity. }
  split.
  { intros fuel u pathname Hr Hp. unfold paths, roles in Hp. cbn in Hp.
    rewrite !elem_of_cons, elem_of_nil in Hp.
    destruct u as [uid uname urole]. cbn in Hr.
    apply role_cases in Hr as [->|[->| ->]];
      destruct Hp as [->|[->|[->|[->|[]]]]];
      repeat (rewrite settle_unfold; cbv -[App.settle]); reflexivity. }
  split.
  { intros fuel u pathname H.
    destruct (settle_shows _ _ _ _ H) as [[_ [=]]|[=]]. }
  intros fuel u pathname page Hr H.
  destruct (settle_shows _ _ _ _ H) as [[_ [=]]|Hd].
  destruct (settle_dashboard _ _ _ _ H Hd) as (u' & [= <-] & Hr' & _).
  contradiction.
Qed.

Lemma role_routing_witness :
  App.matchRoutes (App.routes (Some stranger)) ("/" +:+ "student")
  = Some (App.Navigate "/")
  /\ App.settle 1 None "/driver" = App.Shows App.Landing
  /\ App.settle 2 (Some (App.mkUser "u1" "Asha" "driver")) "/student"
     = App.Shows (dashboard (App.mkUser "u1" "Asha" "driver"))
  /\ App.settle 2 (Some stranger) "/student"
     <> App.Shows (App.StudentDashboard stranger).
Proof.
  split; [|split; [|split]].
  - apply role_routing; [apply role_cases; tauto|].
    intros u [= <-]. discriminate.
  - apply role_routing. unfold paths. cbn. repeat constructor.
  - apply role_routing; [apply role_cases; cbn; tauto|].
    unfold paths. cbn. repeat constructor.
  - apply role_routing. intros H. apply role_cases in H.
    destruct H as [H|[H|H]]; discriminate.
Defined.

(** C7, as stated, fails: a user who is sent away from a dashboard route
    is not sent to the landing page.  From [/student] a driver ends on the
    driver dashboard, and a user whose role is none of the three on a path
    that no route matches, where nothing is shown. *)
Lemma other_user_not_on_landing :
  App.matchRoutes (App.routes (Some asha)) "/student" = Some (App.Navigate "/")
  /\ App.settle 2 (Some asha) "/student" = App.Shows (App.DriverDashboard asha)
  /\ App.matchRoutes (App.routes (Some stranger)) "/student"
     = Some (App.Navigate "/")
  /\ App.settle 1 (Some stranger) "/student" = App.Redirecting "/admin"
  /\ App.settle 2 (Some stranger) "/student" = App.Blank.
Proof. repeat split. Qed.

(** A stored user whose role is none of the three is sent from a dashboard
    route to [/] and from there to the path of the role, which no route
    matches. *)
Lemma foreign_role_trace :
  App.matchRoutes (App.routes (Some stranger)) "/student" = Some (App.Navigate "/")
  /\ App.matchRoutes (App.routes (Some stranger)) "/" = Some (App.Navigate "/admin")
  /\ App.matchRoutes (App.routes (Some stranger)) "/admin" = None
  /\ App.settle 2 (Some stranger) "/student" = App.Blank.
Proof. repeat split. Qed.

(** ** [parseFloat] on the inputs of the scenario *)

Example parseFloat_28_7 :
  JS.parseFloat "28.7" = JS.Fin (Qmake 8078331831595827 281474976710656).
Proof. vm_compute. reflexivity. Qed.

Example parseFloat_tenth :
  JS.parseFloat "0.1" = JS.Fin (Qmake 3602879701896397 36028797018963968).
Proof. vm_compute. reflexivity. Qed.

Example parseFloat_999 : JS.parseFloat "999" = JS.ofZ 999.
Proof. vm_compute. reflexivity. Qed.

Example parseFloat_neg_exp : JS.parseFloat "  -1.5e2xyz" = JS.ofZ (-150).
Proof. vm_compute. reflexivity. Qed.

Example parseFloat_half_even :
  JS.parseFloat "9007199254740993" = JS.ofZ 9007199254740992.
Proof. vm_compute. reflexivity. Qed.

Example parseFloat_max :
  JS.parseFloat "1.7976931348623157e308" = JS.ofZ (2 ^ 1024 - 2 ^ 971).
Proof. vm_compute. reflexivity. Qed.

Example parseFloat_overflow : JS.parseFloat "1.7976931348623159e308" = JS.PosInf.
Proof. vm_compute. reflexivity. Qed.

Example parseFloat_min : JS.parseFloat "5e-324" = JS.Fin (Qmake 1 (2 ^ 1074)).
Proof. vm_compute. reflexivity. Qed.

Example parseFloat_underflow : JS.parseFloat "-1e-400" = JS.Fin 0.
Proof. vm_compute. reflexivity. Qed.

Example parseFloat_rounds_to_bound :
  JS.parseFloat "90.00000000000000001" = JS.ofZ 90.
Proof. vm_compute. reflexivity. Qed.

Example parseFloat_empty : JS.parseFloat "" = JS.NaN.
Proof. reflexivity. Qed.

Example parseFloat_dot : JS.parseFloat "." = JS.NaN.
Proof. reflexivity. Qed.

Example parseFloat_inf : JS.parseFloat "-Infinity" = JS.NegInf.
Proof. reflexivity. Qed.

(** * The rest of the dashboards *)

(** ** DriverDashboard: the toggle and the selection *)

Lemma toggled_nonempty (st : string) : toggled st <> "".
Proof. unfold toggled. destruct (String.eqb st "active"); discriminate. Qed.

Lemma toggled_twice (st : string) :
  toggled (toggled st) = st <-> st = "active" \/ st = "inactive".
Proof.
  unfold toggled. destruct (String.eqb st "active") eqn:E.
  - apply String.eqb_eq in E. subst. cbn. tauto.
  - apply String.eqb_neq in E. cbn. split.
    + intros <-. now right.
    + intros [->| ->]; [contradiction | reflexivity].
Qed.

Lemma status_or_inactive_nonempty (b : Bus.t) :
  DriverEffects.status_or_inactive b <> "".
Proof.
  unfold DriverEffects.status_or_inactive.
  destruct (Bus.status b); [apply or_else_nonempty|]; discriminate.
Qed.

(** [find] through a [map] that keeps the ids. *)
Lemma find_id_fmap (f : Bus.t -> Bus.t) (v : string) (l : list Bus.t) :
  (forall b, Bus.id (f b) = Bus.id b) ->
  List.find (fun b => String.eqb (Bus.id b) v) (f <$> l)
  = f <$> List.find (fun b => String.eqb (Bus.id b) v) l.
Proof.
  intros Hid. induction l as [|a l IH]; [reflexivity|].
  cbn. rewrite Hid. destruct (String.eqb (Bus.id a) v); [reflexivity | exact IH].
Qed.

Lemma find_id_spec (v : string) (l : list Bus.t) :
  match List.find (fun b => String.eqb (Bus.id b) v) l with
  | Some b => b ∈ l /\ Bus.id b = v
  | None => v ∉ ids l
  end.
Proof.
  induction l as [|a l IH]; cbn.
  - unfold ids. cbn. apply not_elem_of_nil.
  - destruct (String.eqb (Bus.id a) v) eqn:E.
    + apply String.eqb_eq in E. split; [apply list_elem_of_here | exact E].
    + apply String.eqb_neq in E.
      destruct (List.find _ l) as [b|].
      * destruct IH as [Hb Hv]. split; [now apply list_elem_of_further | exact Hv].
      * intros Hin. unfold ids in *.
        apply elem_of_cons in Hin as [Hin|Hin]; [congruence | contradiction].
Qed.

(** The state a fulfilled toggle leaves. *)
Lemma toggle_fulfilled (s : Driver.State) (u : unit) :
  Driver.selectedBus s <> "" ->
  fst (Driver.handleBusStatusToggle s (Fulfilled u))
  = Driver.mkState
      ((fun b => if String.eqb (Bus.id b) (Driver.selectedBus s)
                 then Bus.with_status (toggled (Driver.busStatus s)) b else b)
         <$> Driver.buses s)
      (Driver.selectedBus s) (Driver.location s) (Driver.emergencyDesc s)
      false (toggled (Driver.busStatus s)).
Proof.
  intros Hbus. apply truthy_nonempty in Hbus.
  unfold Driver.handleBusStatusToggle. rewrite Hbus. reflexivity.
Qed.

(** X1.  After a fulfilled toggle the badge and the list agree: every entry
    of the selected bus carries the status of the badge, and the selection
    effect that the change of the list triggers changes nothing. *)
Theorem toggle_badge_agrees (s : Driver.State) (u : unit) :
  Driver.selectedBus s <> "" ->
  (forall b,
      b ∈ Driver.buses (fst (Driver.handleBusStatusToggle s (Fulfilled u))) ->
      Bus.id b = Driver.selectedBus s ->
      Bus.status b
      = Some (Driver.busStatus (fst (Driver.handleBusStatusToggle s (Fulfilled u)))))
  /\ DriverEffects.selectionEffect (fst (Driver.handleBusStatusToggle s (Fulfilled u)))
     = fst (Driver.handleBusStatusToggle s (Fulfilled u)).
Proof.
  intros Hbus. rewrite (toggle_fulfilled s u Hbus). split.
  - cbn. intros b Hb Hid. apply list_elem_of_fmap in Hb as (b0 & -> & Hb0).
    destruct (String.eqb (Bus.id b0) (Driver.selectedBus s)) eqn:E; [reflexivity|].
    apply String.eqb_neq in E. contradiction.
  - unfold DriverEffects.selectionEffect. cbn.
    rewrite find_id_fmap
      by (intros b; destruct (String.eqb (Bus.id b) (Driver.selectedBus s)); reflexivity).
    pose proof (find_id_spec (Driver.selectedBus s) (Driver.buses s)) as Hfind.
    destruct (List.find _ (Driver.buses s)) as [b|]; [|reflexivity].
    destruct Hfind as [_ Hid]. cbn.
    apply String.eqb_eq in Hid. rewrite Hid.
    unfold DriverEffects.status_or_inactive, Driver.setBusStatus. cbn.
    unfold JS.or_else.
    destruct (JS.truthy (toggled (Driver.busStatus s))) eqn:Et; [reflexivity|].
    exfalso. apply (toggled_nonempty (Driver.busStatus s)).
    destruct (toggled (Driver.busStatus s)); [reflexivity | discriminate].
Qed.

Lemma toggle_badge_agrees_witness :
  DriverEffects.selectionEffect
    (fst (Driver.handleBusStatusToggle
            (Driver.mkState fleet "B1" (Driver.mkCoords "" "") "" false "inactive")
            (Fulfilled tt)))
  = fst (Driver.handleBusStatusToggle
           (Driver.mkState fleet "B1" (Driver.mkCoords "" "") "" false "inactive")
           (Fulfilled tt)).
Proof.
  apply (toggle_badge_agrees
           (Driver.mkState fleet "B1" (Driver.mkCoords "" "") "" false "inactive") tt).
  discriminate.
Defined.

(** X2.  Two fulfilled toggles in a row give the badge back exactly when it
    showed [active] or [inactive]; from any other text the first toggle
    goes to [active].  The two requests ask for the toggled status and for
    its toggle. *)
Theorem toggle_twice (s : Driver.State) (u u' : unit) :
  Driver.selectedBus s <> "" ->
  Driver.busStatus
    (fst (Driver.handleBusStatusToggle
            (fst (Driver.handleBusStatusToggle s (Fulfilled u))) (Fulfilled u')))
  = toggled (toggled (Driver.busStatus s))
  /\ (toggled (toggled (Driver.busStatus s)) = Driver.busStatus s
      <-> Driver.busStatus s = "active" \/ Driver.busStatus s = "inactive")
  /\ (Driver.busStatus s <> "active" -> toggled (Driver.busStatus s) = "active")
  /\ requests (snd (Driver.handleBusStatusToggle s (Fulfilled u)))
     = [Patch ("/buses/" +:+ Driver.selectedBus s +:+ "/status?status="
               +:+ toggled (Driver.busStatus s))]
  /\ requests (snd (Driver.handleBusStatusToggle
                      (fst (Driver.handleBusStatusToggle s (Fulfilled u)))
                      (Fulfilled u')))
     = [Patch ("/buses/" +:+ Driver.selectedBus s +:+ "/status?status="
               +:+ toggled (toggled (Driver.busStatus s)))].
Proof.
  intros Hbus.
  assert (Hbus' : Driver.selectedBus
                    (fst (Driver.handleBusStatusToggle s (Fulfilled u))) <> "")
    by (rewrite (toggle_fulfilled s u Hbus); exact Hbus).
  split.
  { rewrite (toggle_fulfilled _ u' Hbus'), (toggle_fulfilled s u Hbus). reflexivity. }
  split; [apply toggled_twice|]. split.
  { intros Hne. unfold toggled. apply String.eqb_neq in Hne. now rewrite Hne. }
  assert (Hreq : forall s0 u0, Driver.selectedBus s0 <> "" ->
            requests (snd (Driver.handleBusStatusToggle s0 (Fulfilled u0)))
            = [Patch ("/buses/" +:+ Driver.selectedBus s0 +:+ "/status?status="
                      +:+ toggled (Driver.busStatus s0))]).
  { intros s0 u0 H0. apply truthy_nonempty in H0.
    unfold Driver.handleBusStatusToggle. rewrite H0. reflexivity. }
  split; [now apply Hreq|].
  rewrite (Hreq _ u' Hbus'), (toggle_fulfilled s u Hbus). reflexivity.
Qed.

Lemma toggle_twice_witness :
  Driver.busStatus
    (fst (Driver.handleBusStatusToggle
            (fst (Driver.handleBusStatusToggle (typed "" "" "") (Fulfilled tt)))
            (Fulfilled tt)))
  = "active".
Proof.
  refine (proj1 (toggle_twice (typed "" "" "") tt tt _)). discriminate.
Defined.

(** X3.  A call of a driver handler issues one request at most.  Without a
    request the state is untouched; with one, [loading] is false at the
    end, whether the request was fulfilled or rejected.  A rejected request
    leaves every other cell as it was: the badge, the list, the selection,
    the coordinates and the description typed. *)
Theorem driver_handlers_settle
        (user_id : string) (s : Driver.State) (reply : Reply unit)
        (detail : Detail) (h : Driver.State -> Reply unit -> Driver.State * list Effect) :
  h = Driver.handleBusStatusToggle \/ h = Driver.handleUpdateLocation
  \/ h = Driver.handleEmergency user_id ->
  (requests (snd (h s reply)) = [] /\ fst (h s reply) = s
   \/ exists req, requests (snd (h s reply)) = [req]
                  /\ Driver.loading (fst (h s reply)) = false)
  /\ Driver.setLoading false (fst (h s (Rejected detail))) = Driver.setLoading false s.
Proof.
  intros [->|[->| ->]].
  - unfold Driver.handleBusStatusToggle.
    destruct (negb (JS.truthy (Driver.selectedBus s))).
    + split; [left; split; reflexivity | reflexivity].
    + split; [right; destruct reply; eexists; split; reflexivity | reflexivity].
  - unfold Driver.handleUpdateLocation.
    repeat match goal with
           | |- context [if ?c then _ else _] => destruct c
           end;
      (split; [first [left; split; reflexivity
                     |right; destruct reply; eexists; split; reflexivity]
              | reflexivity]).
  - unfold Driver.handleEmergency.
    destruct (Driver.missing_input s).
    + split; [left; split; reflexivity | reflexivity].
    + split; [right; destruct reply; eexists; split; reflexivity | reflexivity].
Qed.

Lemma driver_handlers_settle_witness :
  Driver.setLoading false
    (fst (Driver.handleEmergency "D1" (typed "28.7" "77.1" "Flat tyre")
                                 (Rejected (DString "Bus not found"))))
  = Driver.setLoading false (typed "28.7" "77.1" "Flat tyre").
Proof.
  refine (proj2 (driver_handlers_settle "D1" (typed "28.7" "77.1" "Flat tyre")
                   (Fulfilled tt) (DString "Bus not found")
                   (Driver.handleEmergency "D1") _)).
  right. right. reflexivity.
Defined.

(** ** DriverDashboard: the buses of the driver *)

Lemma assigned_spec (user_id : string) (b : Bus.t) :
  DriverEffects.assigned user_id b = true
  <-> Bus.driver_id b = Some user_id \/ Bus.driver_id b = None
      \/ Bus.driver_id b = Some "".
Proof.
  unfold DriverEffects.assigned. destruct (Bus.driver_id b) as [d|].
  - rewrite orb_true_iff, String.eqb_eq, negb_true_iff. split.
    + intros [->|H]; [now left|]. right. right. destruct d; [reflexivity|discriminate].
    + intros [[= ->]|[|[= ->]]]; [now left | discriminate | now right].
  - split; [intros _; right; now left | reflexivity].
Qed.

(** X4.  Once the list of buses has arrived the driver holds, in the order
    received, exactly the buses assigned to the driver or to nobody; the
    first of them is selected and the badge shows its status, [inactive]
    when it has none.  When no bus is left the selection and the badge stay
    as they were, as the whole state does when the request is rejected. *)
Theorem driver_fetch (user_id : string) (data : list Bus.t) (s : Driver.State)
        (detail : Detail) :
  Driver.buses (fst (DriverEffects.fetchBuses_settled user_id (Fulfilled data) s))
  = List.filter (DriverEffects.assigned user_id) data
  /\ (forall b,
         b ∈ Driver.buses
               (fst (DriverEffects.fetchBuses_settled user_id (Fulfilled data) s))
         <-> b ∈ data
             /\ (Bus.driver_id b = Some user_id \/ Bus.driver_id b = None
                 \/ Bus.driver_id b = Some ""))
  /\ match Driver.buses
             (fst (DriverEffects.fetchBuses_settled user_id (Fulfilled data) s)) with
     | first :: _ =>
         Driver.selectedBus
           (fst (DriverEffects.fetchBuses_settled user_id (Fulfilled data) s))
         = Bus.id first
         /\ Driver.busStatus
              (fst (DriverEffects.fetchBuses_settled user_id (Fulfilled data) s))
            = DriverEffects.status_or_inactive first
     | [] =>
         Driver.selectedBus
           (fst (DriverEffects.fetchBuses_settled user_id (Fulfilled data) s))
         = Driver.selectedBus s
         /\ Driver.busStatus
              (fst (DriverEffects.fetchBuses_settled user_id (Fulfilled data) s))
            = Driver.busStatus s
     end
  /\ DriverEffects.fetchBuses_settled user_id (Rejected detail) s
     = (s, [ToastError (DString "Failed to load buses")]).
Proof.
  assert (Hbuses :
            Driver.buses
              (fst (DriverEffects.fetchBuses_settled user_id (Fulfilled data) s))
            = List.filter (DriverEffects.assigned user_id) data
            /\ match List.filter (DriverEffects.assigned user_id) data with
               | first :: _ =>
                   Driver.selectedBus
                     (fst (DriverEffects.fetchBuses_settled user_id (Fulfilled data) s))
                   = Bus.id first
                   /\ Driver.busStatus
                        (fst (DriverEffects.fetchBuses_settled user_id (Fulfilled data) s))
                      = DriverEffects.status_or_inactive first
               | [] =>
                   Driver.selectedBus
                     (fst (DriverEffects.fetchBuses_settled user_id (Fulfilled data) s))
                   = Driver.selectedBus s
                   /\ Driver.busStatus
                        (fst (DriverEffects.fetchBuses_settled user_id (Fulfilled data) s))
                      = Driver.busStatus s
               end).
  { unfold DriverEffects.fetchBuses_settled.
    destruct (List.filter (DriverEffects.assigned user_id) data) as [|first rest].
    - repeat split.
    - cbn [fst]. unfold DriverEffects.selectionEffect. cbn.
      rewrite String.eqb_refl. cbn. repeat split. }
  destruct Hbuses as [Hb Hsel]. split; [exact Hb|]. split.
  - intros b. rewrite Hb, list_elem_of_In, filter_In, <- list_elem_of_In.
    now rewrite assigned_spec.
  - split; [|reflexivity]. rewrite Hb. exact Hsel.
Qed.

(** X5.  Choosing a bus makes it the selected one and touches neither the
    list nor the form.  When the list holds the bus the badge takes the
    status of its entry, [inactive] when the entry has none or an empty
    one; when the list does not hold it the badge stays as it was. *)
Theorem select_bus (v : string) (s : Driver.State) :
  Driver.selectedBus (DriverEffects.onValueChange v s) = v
  /\ Driver.buses (DriverEffects.onValueChange v s) = Driver.buses s
  /\ Driver.location (DriverEffects.onValueChange v s) = Driver.location s
  /\ Driver.emergencyDesc (DriverEffects.onValueChange v s) = Driver.emergencyDesc s
  /\ ((v ∈ ids (Driver.buses s)) ->
      exists b, b ∈ Driver.buses s /\ Bus.id b = v
                /\ Driver.busStatus (DriverEffects.onValueChange v s)
                   = match Bus.status b with
                     | Some "" | None => "inactive"
                     | Some st => st
                     end)
  /\ ((v ∉ ids (Driver.buses s)) ->
      Driver.busStatus (DriverEffects.onValueChange v s) = Driver.busStatus s).
Proof.
  unfold DriverEffects.onValueChange, DriverEffects.selectionEffect. cbn.
  pose proof (find_id_spec v (Driver.buses s)) as Hfind.
  destruct (List.find _ (Driver.buses s)) as [b|]; cbn.
  - destruct Hfind as [Hb Hid]. repeat split.
    + intros _. exists b. split; [exact Hb|]. split; [exact Hid|].
      unfold DriverEffects.status_or_inactive.
      destruct (Bus.status b) as [[|c st]|]; reflexivity.
    + intros Hnot. exfalso. apply Hnot. rewrite <- Hid.
      unfold ids. now apply list_elem_of_fmap_2.
  - repeat split. intros Hin. contradiction.
Qed.

Lemma select_bus_witness :
  (exists b, b ∈ fleet /\ Bus.id b = "B1"
             /\ Driver.busStatus
                  (DriverEffects.onValueChange
                     "B1" (Driver.mkState fleet "B2" (Driver.mkCoords "" "") ""
                                          false "active"))
                = match Bus.status b with
                  | Some "" | None => "inactive"
                  | Some st => st
                  end)
  /\ Driver.busStatus
       (DriverEffects.onValueChange
          "B7" (Driver.mkState fleet "B2" (Driver.mkCoords "" "") "" false "active"))
     = "active".
Proof.
  split.
  - apply (select_bus "B1" (Driver.mkState fleet "B2" (Driver.mkCoords "" "") ""
                                           false "active")).
    unfold ids. cbn. apply list_elem_of_here.
  - apply (select_bus "B7" (Driver.mkState fleet "B2" (Driver.mkCoords "" "") ""
                                           false "active")).
    unfold ids. cbn. intros H.
    repeat (apply elem_of_cons in H as [H|H]; [discriminate|]). inversion H.
Defined.

(** ** TransportDashboard: a new bus *)

Lemma incomplete_spec (b : TransportForm.NewBus) :
  TransportForm.incomplete b = true
  <-> TransportForm.bus_number b = "" \/ TransportForm.capacity b = ""
      \/ TransportForm.route_name b = "".
Proof.
  unfold TransportForm.incomplete.
  rewrite !orb_true_iff, !negb_true_iff.
  destruct (TransportForm.bus_number b), (TransportForm.capacity b),
    (TransportForm.route_name b); cbn; intuition congruence.
Qed.

Lemma complete_spec (b : TransportForm.NewBus) :
  TransportForm.bus_number b <> "" -> TransportForm.capacity b <> "" ->
  TransportForm.route_name b <> "" -> TransportForm.incomplete b = false.
Proof.
  intros Hn Hc Hr. destruct (TransportForm.incomplete b) eqn:E; [|reflexivity].
  apply incomplete_spec in E. tauto.
Qed.

(** X6.  With one of the three fields empty nothing is sent and the form is
    kept.  With the three fields filled the bus is posted, its capacity
    being whatever [parseInt] makes of the text, no check made of it; once
    created, the form is emptied, the dialog closed and the list of buses
    requested again. *)
Theorem handleAddBus_submits (f : TransportForm.Form) (r : TransportForm.Settled) :
  (TransportForm.bus_number (TransportForm.newBus f) = ""
   \/ TransportForm.capacity (TransportForm.newBus f) = ""
   \/ TransportForm.route_name (TransportForm.newBus f) = "" ->
   TransportForm.handleAddBus f r
   = (f, [TransportForm.Ui (ToastError (DString "Please fill all fields"))]))
  /\ (TransportForm.bus_number (TransportForm.newBus f) <> "" ->
      TransportForm.capacity (TransportForm.newBus f) <> "" ->
      TransportForm.route_name (TransportForm.newBus f) <> "" ->
      (exists rest,
          snd (TransportForm.handleAddBus f r)
          = TransportForm.PostBus
              (TransportForm.bus_number (TransportForm.newBus f))
              (JSInt.parseInt (TransportForm.capacity (TransportForm.newBus f)))
              (TransportForm.route_name (TransportForm.newBus f)) :: rest)
      /\ TransportForm.handleAddBus f TransportForm.Created
         = (TransportForm.mkForm (TransportForm.mkNewBus "" "" "") false,
            [TransportForm.PostBus
               (TransportForm.bus_number (TransportForm.newBus f))
               (JSInt.parseInt (TransportForm.capacity (TransportForm.newBus f)))
               (TransportForm.route_name (TransportForm.newBus f));
             TransportForm.Ui (ToastSuccess "✓ Bus added successfully!");
             TransportForm.Ui (Get "/buses")])).
Proof.
  split.
  - intros Hempty. apply incomplete_spec in Hempty.
    unfold TransportForm.handleAddBus. now rewrite Hempty.
  - intros Hn Hc Hr. unfold TransportForm.handleAddBus.
    rewrite (complete_spec _ Hn Hc Hr). split; [|reflexivity].
    destruct r as [|error]; [eexists; reflexivity|].
    destruct (TransportForm.errorMsg error) as [msg expired].
    eexists; reflexivity.
Qed.

Lemma handleAddBus_submits_witness :
  TransportForm.handleAddBus
    (TransportForm.mkForm (TransportForm.mkNewBus "101" "" "Main") true)
    TransportForm.Created
  = (TransportForm.mkForm (TransportForm.mkNewBus "101" "" "Main") true,
     [TransportForm.Ui (ToastError (DString "Please fill all fields"))])
  /\ TransportForm.handleAddBus
       (TransportForm.mkForm (TransportForm.mkNewBus "101" "12.7 seats" "Main") true)
       TransportForm.Created
     = (TransportForm.mkForm (TransportForm.mkNewBus "" "" "") false,
        [TransportForm.PostBus "101" (JS.ofZ 12) "Main";
         TransportForm.Ui (ToastSuccess "✓ Bus added successfully!");
         TransportForm.Ui (Get "/buses")])
  /\ TransportForm.handleAddBus
       (TransportForm.mkForm (TransportForm.mkNewBus "101" "many" "Main") true)
       TransportForm.Created
     = (TransportForm.mkForm (TransportForm.mkNewBus "" "" "") false,
        [TransportForm.PostBus "101" JS.NaN "Main";
         TransportForm.Ui (ToastSuccess "✓ Bus added successfully!");
         TransportForm.Ui (Get "/buses")]).
Proof.
  split; [|split].
  - apply (handleAddBus_submits
             (TransportForm.mkForm (TransportForm.mkNewBus "101" "" "Main") true)).
    right. left. reflexivity.
  - apply (handleAddBus_submits
             (TransportForm.mkForm (TransportForm.mkNewBus "101" "12.7 seats" "Main") true)
             TransportForm.Created); discriminate.
  - apply (handleAddBus_submits
             (TransportForm.mkForm (TransportForm.mkNewBus "101" "many" "Main") true)
             TransportForm.Created); discriminate.
Defined.

(** X7.  When the creation of a bus is rejected the form and the dialog are
    kept and the list is not requested again.  The message is never empty:
    status 401 announces the end of the session and schedules the logout
    two seconds later, status 403 the missing permission, whatever the
    detail says; otherwise the detail is shown when it is a non-empty
    string, and the fixed text when it is not. *)
Theorem handleAddBus_rejected (f : TransportForm.Form) (error : TransportForm.Failure) :
  TransportForm.bus_number (TransportForm.newBus f) <> "" ->
  TransportForm.capacity (TransportForm.newBus f) <> "" ->
  TransportForm.route_name (TransportForm.newBus f) <> "" ->
  exists msg,
    TransportForm.handleAddBus f (TransportForm.Failed error)
    = (f,
       TransportForm.PostBus
         (TransportForm.bus_number (TransportForm.newBus f))
         (JSInt.parseInt (TransportForm.capacity (TransportForm.newBus f)))
         (TransportForm.route_name (TransportForm.newBus f))
       :: (if decide (TransportForm.status error = Some 401%Z)
           then [TransportForm.LogoutLater 2000] else [])
       ++ [TransportForm.Ui (ToastError (DString msg))])
    /\ msg <> ""
    /\ (TransportForm.status error = Some 401%Z ->
        msg = "Session expired. Please login again.")
    /\ (TransportForm.status error = Some 403%Z ->
        msg = "You do not have permission to add buses")
    /\ (TransportForm.status error <> Some 401%Z ->
        TransportForm.status error <> Some 403%Z ->
        msg = match TransportForm.detail error with
              | DString (String c d) => String c d
              | _ => "Failed to add bus"
              end).
Proof.
  intros Hn Hc Hr. unfold TransportForm.handleAddBus.
  rewrite (complete_spec _ Hn Hc Hr). unfold TransportForm.errorMsg.
  destruct error as [status detail]. cbn [TransportForm.status TransportForm.detail].
  destruct (decide (status = Some 401%Z)) as [->|H401].
  { eexists. split; [reflexivity|]. repeat split; try discriminate; congruence. }
  destruct (decide (status = Some 403%Z)) as [->|H403].
  { eexists. split; [reflexivity|]. repeat split; try discriminate; congruence. }
  assert (Hother :
            match status with
            | Some 401%Z => ("Session expired. Please login again.", true)
            | Some 403%Z => ("You do not have permission to add buses", false)
            | _ =>
                match detail with
                | DString d => (if JS.truthy d then d else "Failed to add bus", false)
                | _ => ("Failed to add bus", false)
                end
            end
            = (match detail with
               | DString (String c d) => String c d
               | _ => "Failed to add bus"
               end, false)).
  { destruct status as [z|]; [|destruct detail as [|[|c d]|]; reflexivity].
    destruct z as [|p|p]; try (destruct detail as [|[|c d]|]; reflexivity).
    destruct (decide (p = 401%positive)) as [->|Hp1]; [congruence|].
    destruct (decide (p = 403%positive)) as [->|Hp3]; [congruence|].
    do 9 (destruct p as [p|p|]; try congruence;
          try (destruct detail as [|[|c d]|]; reflexivity)). }
  rewrite Hother. eexists. split; [reflexivity|].
  repeat split; try congruence.
  destruct detail as [|[|c d]|]; discriminate.
Qed.

Lemma handleAddBus_rejected_witness :
  exists msg,
    TransportForm.handleAddBus
      (TransportForm.mkForm (TransportForm.mkNewBus "101" "50" "Main") true)
      (TransportForm.Failed (TransportForm.mkFailure (Some 401%Z) (DString "Expired")))
    = (TransportForm.mkForm (TransportForm.mkNewBus "101" "50" "Main") true,
       [TransportForm.PostBus "101" (JS.ofZ 50) "Main";
        TransportForm.LogoutLater 2000;
        TransportForm.Ui (ToastError (DString msg))])
    /\ msg = "Session expired. Please login again.".
Proof.
  destruct (handleAddBus_rejected
              (TransportForm.mkForm (TransportForm.mkNewBus "101" "50" "Main") true)
              (TransportForm.mkFailure (Some 401%Z) (DString "Expired")))
    as (msg & E & _ & H401 & _); try discriminate.
  exists msg. split; [exact E | exact (H401 eq_refl)].
Defined.

(** ** TransportDashboard: the operator's actions and the alerts *)

(** X8.  The operator's toggle asks for [inactive] exactly when the bus is
    [active] and for [active] in every other case, a missing status
    included, so never for the status the bus has.  A fulfilled toggle
    requests the list of buses again and a fulfilled resolution the list of
    alerts, each exactly once; a rejected action requests nothing more. *)
Theorem operator_actions
        (busId alertId : string) (currentStatus : option string) (detail : Detail)
        (u : unit) :
  (exists newStatus,
      requests (Transport.handleToggleBusStatus busId currentStatus (Fulfilled u))
      = [Patch ("/buses/" +:+ busId +:+ "/status?status=" +:+ newStatus);
         Get "/buses"]
      /\ requests (Transport.handleToggleBusStatus busId currentStatus (Rejected detail))
         = [Patch ("/buses/" +:+ busId +:+ "/status?status=" +:+ newStatus)]
      /\ (newStatus = "inactive" <-> currentStatus = Some "active")
      /\ (newStatus = "active" <-> currentStatus <> Some "active")
      /\ currentStatus <> Some newStatus)
  /\ requests (Transport.handleResolveAlert alertId (Fulfilled u))
     = [Patch ("/emergency/" +:+ alertId +:+ "/resolve"); Get "/emergency"]
  /\ requests (Transport.handleResolveAlert alertId (Rejected detail))
     = [Patch ("/emergency/" +:+ alertId +:+ "/resolve")].
Proof.
  split; [|split; reflexivity].
  unfold Transport.handleToggleBusStatus.
  destruct currentStatus as [st|].
  - destruct (String.eqb st "active") eqn:E.
    + apply String.eqb_eq in E. subst. eexists. split; [reflexivity|].
      split; [reflexivity|]. repeat split; congruence.
    + apply String.eqb_neq in E. eexists. split; [reflexivity|].
      split; [reflexivity|]. repeat split; congruence.
  - eexists. split; [reflexivity|]. split; [reflexivity|].
    repeat split; congruence.
Qed.

Lemma transport_run_cons (e : Transport.Event) (es : list Transport.Event)
      (s : Transport.State) :
  fst (Transport.run s (e :: es)) = fst (Transport.run (fst (Transport.step s e)) es).
Proof.
  cbn [Transport.run]. destruct (Transport.step s e) as [s1 out1].
  cbn [fst]. now destruct (Transport.run s1 es).
Qed.

Lemma student_run_cons (e : Student.Event) (es : list Student.Event)
      (s : Student.State) :
  fst (Student.run s (e :: es)) = fst (Student.run (fst (Student.step s e)) es).
Proof.
  cbn [Student.run]. destruct (Student.step s e) as [s1 out1].
  cbn [fst]. now destruct (Student.run s1 es).
Qed.

Lemma activeAlerts_app (l k : list Alert.t) :
  TransportForm.activeAlerts (l ++ k)
  = (TransportForm.activeAlerts l + TransportForm.activeAlerts k)%nat.
Proof.
  unfold TransportForm.activeAlerts. now rewrite List.filter_app, length_app.
Qed.

(** X9.  The operator's list holds the alerts received newest first, before
    those it held; the buses are left alone, and the counter of active
    alerts has grown by the number of alerts that arrived as [active].  The
    student dashboard keeps its list of buses through any number of
    alerts. *)
Theorem emergency_alerts_received
        (arrived : list Alert.t) (s : Transport.State) (s' : Student.State) :
  Transport.alerts
    (fst (Transport.run s ((fun a => Transport.Receive (EmergencyAlert a)) <$> arrived)))
  = rev arrived ++ Transport.alerts s
  /\ Transport.buses
       (fst (Transport.run s ((fun a => Transport.Receive (EmergencyAlert a)) <$> arrived)))
     = Transport.buses s
  /\ TransportForm.activeAlerts
       (Transport.alerts
          (fst (Transport.run s ((fun a => Transport.Receive (EmergencyAlert a))
                                   <$> arrived))))
     = (TransportForm.activeAlerts arrived
        + TransportForm.activeAlerts (Transport.alerts s))%nat
  /\ Student.buses
       (fst (Student.run s' ((fun a => Student.Receive (EmergencyAlert a)) <$> arrived)))
     = Student.buses s'.
Proof.
  assert (HT : forall s0,
             Transport.alerts
               (fst (Transport.run s0 ((fun a => Transport.Receive (EmergencyAlert a))
                                         <$> arrived)))
             = rev arrived ++ Transport.alerts s0
             /\ Transport.buses
                  (fst (Transport.run s0 ((fun a => Transport.Receive (EmergencyAlert a))
                                            <$> arrived)))
                = Transport.buses s0).
  { induction arrived as [|a arrived IH]; intros s0; [split; reflexivity|].
    rewrite fmap_cons, transport_run_cons.
    destruct (IH (fst (Transport.step s0 (Transport.Receive (EmergencyAlert a)))))
      as [-> ->].
    split; [|reflexivity]. cbn. now rewrite <- app_assoc. }
  destruct (HT s) as [Ha Hb]. split; [exact Ha|]. split; [exact Hb|]. split.
  - rewrite Ha, activeAlerts_app. f_equal.
    unfold TransportForm.activeAlerts.
    rewrite <- (length_rev (List.filter _ arrived)).
    f_equal. clear. induction arrived as [|a l IH]; [reflexivity|].
    cbn. rewrite List.filter_app, IH. cbn.
    destruct (String.eqb (Alert.status a) "active"); [reflexivity | apply app_nil_r].
  - clear. revert s'. induction arrived as [|a arrived IH]; intros s'; [reflexivity|].
    rewrite fmap_cons, student_run_cons. now rewrite IH.
Qed.


(** ** The bus list under several location updates *)

Section FirstEntry.

Variable data : LocationData.t.

Local Abbreviation bid := (LocationData.bus_id data).
Local Abbreviation refreshed :=
  (Bus.with_status_location "active" (LocationData.last_location data)).


Lemma transport_found (l : list Bus.t) (k : nat) (old : Bus.t) :
  first_entry data l k old ->
  Transport.onLocationUpdate data l = <[k := refreshed old]> l.
Proof.
  intros Hfirst.
  destruct (transport_cases data l) as [[Hnot _]|(k' & old' & Hfirst' & ->)].
  - exfalso. eapply Hnot, first_entry_known, Hfirst.
  - assert (k' = k) as -> by (eapply first_entry_unique; eassumption).
    destruct Hfirst as (Hk & _), Hfirst' as (Hk' & _). congruence.
Qed.

Lemma transport_missing (l : list Bus.t) :
  bid ∉ ids l -> Transport.onLocationUpdate data l = l.
Proof.
  intros Hnot.
  destruct (transport_cases data l) as [[_ E]|(k & old & Hfirst & _)]; [exact E|].
  exfalso. eapply Hnot, first_entry_known, Hfirst.
Qed.

Lemma student_found (l : list Bus.t) (k : nat) (old : Bus.t) :
  first_entry data l k old ->
  Student.onLocationUpdate data l = <[k := Student.newBus data]> l.
Proof.
  intros Hfirst.
  destruct (student_cases data l) as [[Hnot _]|(k' & old' & Hfirst' & ->)].
  - exfalso. eapply Hnot, first_entry_known, Hfirst.
  - assert (k' = k) as -> by (eapply first_entry_unique; eassumption).
    reflexivity.
Qed.

Lemma student_missing (l : list Bus.t) :
  bid ∉ ids l -> Student.onLocationUpdate data l = l ++ [Student.newBus data].
Proof.
  intros Hnot.
  destruct (student_cases data l) as [[_ E]|(k & old & Hfirst & _)]; [exact E|].
  exfalso. eapply Hnot, first_entry_known, Hfirst.
Qed.

(** Rewriting the first entry of the bus, with the same id, keeps it the
    first entry. *)
Lemma first_entry_insert_same (l : list Bus.t) (k : nat) (old new : Bus.t) :
  first_entry data l k old -> Bus.id new = bid ->
  first_entry data (<[k := new]> l) k new.
Proof.
  intros (Hk & Hid & Hmin) Hnew. split; [|split; [exact Hnew|]].
  - apply list_lookup_insert_eq. eapply lookup_lt_Some, Hk.
  - intros j y Hj Hy. rewrite list_lookup_insert_ne in Hy by lia.
    now apply (Hmin j y).
Qed.

(** Rewriting an entry of another bus, with its own id, does not move the
    first entry of this one. *)
Lemma first_entry_insert_other
      (l : list Bus.t) (k k' : nat) (old other new : Bus.t) :
  first_entry data l k old -> l !! k' = Some other ->
  Bus.id other <> bid -> Bus.id new = Bus.id other ->
  first_entry data (<[k' := new]> l) k old.
Proof.
  intros (Hk & Hid & Hmin) Hk' Hother Hnew.
  assert (k' <> k) by (intros ->; congruence).
  split; [|split; [exact Hid|]].
  - now rewrite list_lookup_insert_ne.
  - intros j y Hj Hy. destruct (decide (k' = j)) as [->|Hne].
    + rewrite list_lookup_insert_eq in Hy by (eapply lookup_lt_Some, Hk').
      injection Hy as <-. congruence.
    + rewrite list_lookup_insert_ne in Hy by exact Hne. now apply (Hmin j y).
Qed.

Lemma first_entry_snoc (l : list Bus.t) (new : Bus.t) :
  bid ∉ ids l -> Bus.id new = bid ->
  first_entry data (l ++ [new]) (length l) new.
Proof.
  intros Hnot Hnew. split; [|split; [exact Hnew|]].
  - rewrite lookup_app_r by lia. now rewrite Nat.sub_diag.
  - intros j y Hj Hy. rewrite lookup_app_l in Hy by exact Hj.
    intros E. apply Hnot. rewrite <- E. eapply entry_id_known, Hy.
Qed.

Lemma first_entry_app (l l' : list Bus.t) (k : nat) (old : Bus.t) :
  first_entry data l k old -> first_entry data (l ++ l') k old.
Proof.
  intros (Hk & Hid & Hmin). pose proof (lookup_lt_Some _ _ _ Hk) as Hlt.
  split; [|split; [exact Hid|]].
  - now rewrite lookup_app_l.
  - intros j y Hj Hy. rewrite lookup_app_l in Hy by lia. now apply (Hmin j y).
Qed.

End FirstEntry.

Lemma first_entry_same_bus (d1 d2 : LocationData.t) (l : list Bus.t)
      (k : nat) (old : Bus.t) :
  LocationData.bus_id d1 = LocationData.bus_id d2 ->
  first_entry d1 l k old -> first_entry d2 l k old.
Proof. unfold first_entry. now intros ->. Qed.

Lemma snoc_insert_last (l : list Bus.t) (x y : Bus.t) :
  <[length l := y]> (l ++ [x]) = l ++ [y].
Proof.
  rewrite <- (Nat.add_0_r (length l)) at 1. now rewrite insert_app_r.
Qed.

(** X12.  Applying a location update a second time changes nothing, on
    either dashboard: a message delivered twice leaves the list as the
    first delivery left it. *)
Theorem location_update_idempotent (data : LocationData.t) (prev : list Bus.t) :
  Transport.onLocationUpdate data (Transport.onLocationUpdate data prev)
  = Transport.onLocationUpdate data prev
  /\ Student.onLocationUpdate data (Student.onLocationUpdate data prev)
     = Student.onLocationUpdate data prev.
Proof.
  split.
  - destruct (transport_cases data prev) as [[Hnot E]|(k & old & Hfirst & E)];
      rewrite E.
    + exact E.
    + pose proof (first_entry_insert_same
                    data prev k old
                    (Bus.with_status_location "active"
                       (LocationData.last_location data) old)
                    Hfirst (proj1 (proj2 Hfirst))) as Hagain.
      rewrite (transport_found data _ _ _ Hagain).
      now rewrite list_insert_insert_eq.
  - destruct (student_cases data prev) as [[Hnot E]|(k & old & Hfirst & E)];
      rewrite E.
    + rewrite (student_found data _ _ _
                 (first_entry_snoc data prev (Student.newBus data) Hnot eq_refl)).
      apply snoc_insert_last.
    + pose proof (first_entry_insert_same
                    data prev k old (Student.newBus data) Hfirst eq_refl) as Hagain.
      rewrite (student_found data _ _ _ Hagain).
      now rewrite list_insert_insert_eq.
Qed.

(** X13.  Of two location updates for the same bus the later one wins: the
    list is the one the later update alone would have given.  Updates for
    two different buses can be applied in either order on the transport
    dashboard, and on the student dashboard as soon as one of the two buses
    is in the list. *)
Theorem location_updates_compose (d1 d2 : LocationData.t) (prev : list Bus.t) :
  (LocationData.bus_id d1 = LocationData.bus_id d2 ->
   Transport.onLocationUpdate d2 (Transport.onLocationUpdate d1 prev)
   = Transport.onLocationUpdate d2 prev
   /\ Student.onLocationUpdate d2 (Student.onLocationUpdate d1 prev)
      = Student.onLocationUpdate d2 prev)
  /\ (LocationData.bus_id d1 <> LocationData.bus_id d2 ->
      Transport.onLocationUpdate d2 (Transport.onLocationUpdate d1 prev)
      = Transport.onLocationUpdate d1 (Transport.onLocationUpdate d2 prev))
  /\ (LocationData.bus_id d1 <> LocationData.bus_id d2 ->
      (LocationData.bus_id d1 ∈ ids prev) \/ (LocationData.bus_id d2 ∈ ids prev) ->
      Student.onLocationUpdate d2 (Student.onLocationUpdate d1 prev)
      = Student.onLocationUpdate d1 (Student.onLocationUpdate d2 prev)).
Proof.
  split; [|split].
  - intros Hsame. split.
    + destruct (transport_cases d1 prev) as [[Hnot E]|(k & old & Hfirst & E)];
        rewrite E; [reflexivity|].
      pose proof (first_entry_same_bus d1 d2 prev k old Hsame Hfirst) as Hfirst2.
      rewrite (transport_found d2 prev k old Hfirst2).
      pose proof (first_entry_insert_same
                    d2 prev k old
                    (Bus.with_status_location "active"
                       (LocationData.last_location d1) old)
                    Hfirst2 (proj1 (proj2 Hfirst2))) as Hagain.
      rewrite (transport_found d2 _ _ _ Hagain).
      now rewrite list_insert_insert_eq.
    + destruct (student_cases d1 prev) as [[Hnot E]|(k & old & Hfirst & E)];
        rewrite E.
      * rewrite Hsame in Hnot.
        rewrite (student_missing d2 prev Hnot).
        rewrite (student_found d2 _ _ _
                   (first_entry_snoc d2 prev (Student.newBus d1) Hnot Hsame)).
        apply snoc_insert_last.
      * pose proof (first_entry_same_bus d1 d2 prev k old Hsame Hfirst) as Hfirst2.
        rewrite (student_found d2 prev k old Hfirst2).
        pose proof (first_entry_insert_same
                      d2 prev k old (Student.newBus d1) Hfirst2 Hsame) as Hagain.
        rewrite (student_found d2 _ _ _ Hagain).
        now rewrite list_insert_insert_eq.
  - intros Hdiff.
    destruct (transport_cases d1 prev) as [[Hn1 E1]|(k1 & o1 & Hf1 & E1)];
      destruct (transport_cases d2 prev) as [[Hn2 E2]|(k2 & o2 & Hf2 & E2)].
    + rewrite E1, E2, E1. reflexivity.
    + rewrite E1, E2. symmetry. apply transport_missing.
      rewrite (ids_insert_same prev k2 o2); [exact Hn1 | apply Hf2 | reflexivity].
    + rewrite E2, E1. apply transport_missing.
      rewrite (ids_insert_same prev k1 o1); [exact Hn2 | apply Hf1 | reflexivity].
    + rewrite E1, E2. pose proof Hf1 as (Hk1 & Hid1 & Hmin1).
      pose proof Hf2 as (Hk2 & Hid2 & Hmin2).
      assert (Hne : k1 <> k2) by (intros ->; congruence).
      rewrite (transport_found d2 _ k2 o2).
      2:{ apply (first_entry_insert_other d2 prev k2 k1 o2 o1);
            [repeat split; assumption | exact Hk1 | congruence | reflexivity]. }
      rewrite (transport_found d1 _ k1 o1).
      2:{ apply (first_entry_insert_other d1 prev k1 k2 o1 o2);
            [repeat split; assumption | exact Hk2 | congruence | reflexivity]. }
      now apply list_insert_insert_ne.
  - intros Hdiff Hknown.
    destruct (student_cases d1 prev) as [[Hn1 E1]|(k1 & o1 & Hf1 & E1)];
      destruct (student_cases d2 prev) as [[Hn2 E2]|(k2 & o2 & Hf2 & E2)];
      [|rewrite E1, E2..].
    + destruct Hknown; contradiction.
    + rewrite (student_found d2 _ k2 o2 (first_entry_app d2 prev _ k2 o2 Hf2)).
      rewrite student_missing.
      2:{ rewrite (ids_insert_same prev k2 o2);
            [exact Hn1 | apply Hf2 | symmetry; apply Hf2]. }
      apply insert_app_l. eapply lookup_lt_Some, Hf2.
    + rewrite (student_found d1 _ k1 o1 (first_entry_app d1 prev _ k1 o1 Hf1)).
      rewrite student_missing.
      2:{ rewrite (ids_insert_same prev k1 o1);
            [exact Hn2 | apply Hf1 | symmetry; apply Hf1]. }
      symmetry. apply insert_app_l. eapply lookup_lt_Some, Hf1.
    + pose proof Hf1 as (Hk1 & Hid1 & Hmin1).
      pose proof Hf2 as (Hk2 & Hid2 & Hmin2).
      assert (Hne : k1 <> k2) by (intros ->; congruence).
      rewrite (student_found d2 _ k2 o2).
      2:{ apply (first_entry_insert_other d2 prev k2 k1 o2 o1);
            [repeat split; assumption | exact Hk1 | congruence
            | symmetry; exact Hid1]. }
      rewrite (student_found d1 _ k1 o1).
      2:{ apply (first_entry_insert_other d1 prev k1 k2 o1 o2);
            [repeat split; assumption | exact Hk2 | congruence
            | symmetry; exact Hid2]. }
      now apply list_insert_insert_ne.
Qed.

Lemma location_updates_compose_witness :
  Transport.onLocationUpdate (report "B2") (Transport.onLocationUpdate (report "B1") fleet)
  = Transport.onLocationUpdate (report "B1") (Transport.onLocationUpdate (report "B2") fleet)
  /\ Student.onLocationUpdate (report "B9") (Student.onLocationUpdate (report "B1") fleet)
     = Student.onLocationUpdate (report "B1") (Student.onLocationUpdate (report "B9") fleet).
Proof.
  split.
  - apply (location_updates_compose (report "B1") (report "B2") fleet). discriminate.
  - apply (location_updates_compose (report "B1") (report "B9") fleet);
      [discriminate|].
    left. unfold ids. cbn. apply list_elem_of_here.
Defined.

(** ** The map *)

Lemma markers_spec (b : Bus.t) (l : list Bus.t) :
  b ∈ MapView.markers l
  <-> b ∈ l /\ Bus.status b = Some "active" /\ is_Some (Bus.last_location b).
Proof.
  unfold MapView.markers, MapView.isActive.
  rewrite list_elem_of_In, filter_In, <- list_elem_of_In, andb_true_iff.
  destruct (Bus.status b) as [st|], (Bus.last_location b) as [loc|]; cbn.
  - rewrite String.eqb_eq. split.
    + intros (Hb & -> & _). eauto.
    + intros (Hb & [= ->] & _). auto.
  - split; [intros (_ & _ & ?); discriminate | intros (_ & _ & [? ?]); discriminate].
  - split; [intros (_ & ? & _); discriminate | intros (_ & ? & _); discriminate].
  - split; [intros (_ & ? & _); discriminate | intros (_ & ? & _); discriminate].
Qed.




Lemma truthy_num_spec (x : JS.jsnum) : MapView.truthy_num x = true <-> nonzero x.
Proof.
  destruct x as [| |q|]; cbn; try tauto.
  - split; [discriminate | tauto].
  - rewrite negb_true_iff. split.
    + intros H Hq. apply Qeq_bool_iff in Hq. congruence.
    + intros H. destruct (Qeq_bool q 0) eqn:E; [|reflexivity].
      apply Qeq_bool_iff in E. contradiction.
Qed.

Lemma points_spec (buses : list Bus.t) (p : JS.jsnum * JS.jsnum) :
  p ∈ MapView.points buses
  <-> exists b l, b ∈ buses /\ Bus.last_location b = Some l
                  /\ p = (Loc.latitude l, Loc.longitude l)
                  /\ nonzero (Loc.latitude l) /\ nonzero (Loc.longitude l).
Proof.
  unfold MapView.points. rewrite list_elem_of_omap. split.
  - intros (b & Hb & Hp).
    apply list_elem_of_In, filter_In in Hb as [Hb Hloc].
    unfold MapView.located in Hloc.
    destruct (Bus.last_location b) as [l|] eqn:El; [|discriminate].
    injection Hp as <-. apply andb_true_iff in Hloc as [Hla Hlo].
    exists b, l. rewrite <- !truthy_num_spec, list_elem_of_In. auto.
  - intros (b & l & Hb & El & -> & Hla & Hlo).
    exists b. rewrite El. split; [|reflexivity].
    apply list_elem_of_In, filter_In. split; [now apply list_elem_of_In|].
    unfold MapView.located. rewrite El.
    apply truthy_num_spec in Hla, Hlo. now rewrite Hla, Hlo.
Qed.

(** X11.  The map is fitted to the buses that have a place both of whose
    coordinates are numbers other than zero: a bus on the equator or on the
    prime meridian, which gets its marker when it is active, is left out of
    the bounds.  When no bus is left the map is not fitted at all. *)
Theorem mapBounds_points (buses : list Bus.t) :
  (forall p,
      p ∈ MapView.points buses
      <-> exists b l, b ∈ buses /\ Bus.last_location b = Some l
                      /\ p = (Loc.latitude l, Loc.longitude l)
                      /\ nonzero (Loc.latitude l) /\ nonzero (Loc.longitude l))
  /\ (MapView.points buses = [] /\ MapView.MapBounds buses = []
      \/ MapView.points buses <> []
         /\ MapView.MapBounds buses = [MapView.FitBounds (MapView.points buses)])
  /\ (forall b l,
         Bus.last_location b = Some l ->
         ~ (nonzero (Loc.latitude l) /\ nonzero (Loc.longitude l)) ->
         MapView.points (b :: buses) = MapView.points buses
         /\ MapView.MapBounds [b] = []
         /\ (Bus.status b = Some "active" -> b ∈ MapView.markers (b :: buses))).
Proof.
  split; [apply points_spec|]. split.
  - unfold MapView.MapBounds. destruct buses as [|b buses].
    + left. split; reflexivity.
    + destruct (MapView.points (b :: buses)) as [|p ps].
      * left. split; reflexivity.
      * right. split; [discriminate | reflexivity].
  - intros b l El Hzero.
    assert (Hloc : MapView.located b = false).
    { unfold MapView.located. rewrite El.
      destruct (MapView.truthy_num (Loc.latitude l)) eqn:Hla;
        destruct (MapView.truthy_num (Loc.longitude l)) eqn:Hlo; try reflexivity.
      exfalso. apply Hzero. now rewrite <- !truthy_num_spec. }
    split; [|split].
    + unfold MapView.points. cbn [List.filter]. now rewrite Hloc.
    + unfold MapView.MapBounds, MapView.points. cbn [List.filter]. now rewrite Hloc.
    + intros Hst. apply markers_spec.
      split; [apply list_elem_of_here|]. split; [exact Hst | eexists; exact El].
Qed.

Lemma mapBounds_points_witness :
  MapView.points (equator :: fleet) = MapView.points fleet
  /\ MapView.MapBounds [equator] = []
  /\ (Bus.status equator = Some "active" -> equator ∈ MapView.markers (equator :: fleet)).
Proof.
  apply (proj2 (proj2 (mapBounds_points fleet)) equator
           (Loc.mk (JS.ofZ 0) (JS.ofZ 77) (JS.ofZ 0) "09:10") eq_refl).
  intros [H _]. apply H. reflexivity.
Defined.

(** ** The bus list along a run *)

Lemma transport_step_keyed (s : Transport.State) (e : Transport.Event) :
  NoDup (ids (Transport.buses s)) -> transport_keyed e ->
  NoDup (ids (Transport.buses (fst (Transport.step s e)))).
Proof.
  intros Hnd He.
  destruct (transport_step_buses s e) as [->|[[d ->]|(data & -> & ->)]].
  - exact Hnd.
  - now apply transport_NoDup.
  - exact He.
Qed.

Lemma student_step_keyed (s : Student.State) (e : Student.Event) :
  NoDup (ids (Student.buses s)) -> student_keyed e ->
  NoDup (ids (Student.buses (fst (Student.step s e)))).
Proof.
  intros Hnd He.
  destruct (student_step_buses s e) as [->|[[d ->]|(data & -> & ->)]].
  - exact Hnd.
  - now apply student_NoDup.
  - exact He.
Qed.

(** X14.  A dashboard whose list of buses holds one entry per bus keeps it
    so through everything that happens to it, as long as every snapshot it
    receives holds one entry per bus: the keys of the rendered lists stay
    unique. *)
Theorem bus_list_stays_keyed
        (esT : list Transport.Event) (sT : Transport.State)
        (esS : list Student.Event) (sS : Student.State) :
  (NoDup (ids (Transport.buses sT)) -> Forall transport_keyed esT ->
   NoDup (ids (Transport.buses (fst (Transport.run sT esT)))))
  /\ (NoDup (ids (Student.buses sS)) -> Forall student_keyed esS ->
      NoDup (ids (Student.buses (fst (Student.run sS esS))))).
Proof.
  split.
  - revert sT. induction esT as [|e es IH]; intros s Hnd Hes; [exact Hnd|].
    rewrite transport_run_cons. apply Forall_cons in Hes as [He Hes].
    apply IH; [now apply transport_step_keyed | exact Hes].
  - revert sS. induction esS as [|e es IH]; intros s Hnd Hes; [exact Hnd|].
    rewrite student_run_cons. apply Forall_cons in Hes as [He Hes].
    apply IH; [now apply student_step_keyed | exact Hes].
Qed.

Lemma bus_list_stays_keyed_witness :
  NoDup (ids (Student.buses
                (fst (Student.run
                        Student.initial
                        [Student.Mount; Student.BusesFetched (Fulfilled fleet);
                         Student.Receive (LocationUpdate (report "B9"));
                         Student.Receive (LocationUpdate (report "B9"));
                         Student.Receive (LocationUpdate (report "B1"))])))).
Proof.
  apply (bus_list_stays_keyed [] Transport.initial).
  - apply NoDup_nil_2.
  - repeat (apply Forall_cons; split); try exact I; try apply Forall_nil_2.
    unfold ids. cbn. apply NoDup_cons. split.
    + intros H. apply list_elem_of_singleton in H. discriminate.
    + apply NoDup_singleton.
Defined.

Lemma transport_receive_ids (s : Transport.State) (m : Message) :
  ids (Transport.buses (fst (Transport.step s (Transport.Receive m))))
  = ids (Transport.buses s).
Proof. destruct m as [d|a|ev]; cbn; [apply transport_ids | reflexivity..]. Qed.

Lemma student_receive_ids (s : Student.State) (m : Message) :
  ids (Student.buses (fst (Student.step s (Student.Receive m))))
  = match m with
    | LocationUpdate d =>
        if decide (LocationData.bus_id d ∈ ids (Student.buses s))
        then ids (Student.buses s)
        else ids (Student.buses s) ++ [LocationData.bus_id d]
    | _ => ids (Student.buses s)
    end.
Proof. destruct m as [d|a|ev]; cbn; [apply student_ids | reflexivity..]. Qed.

Lemma student_receive_prefix (s : Student.State) (m : Message) :
  ids (Student.buses s)
  `prefix_of` ids (Student.buses (fst (Student.step s (Student.Receive m)))).
Proof.
  rewrite student_receive_ids. destruct m as [d|a|ev]; try reflexivity.
  case_decide; [reflexivity | now apply prefix_app_r].
Qed.

(** X15.  Between two snapshots the messages of the stream never remove a
    bus and never reorder the list: the operator's list keeps its ids, and
    the ids of the student's list are continued by those of the buses
    reported for the first time, so that every bus of a location update
    received is in the student's list from then on. *)
Theorem ids_between_snapshots
        (ms : list Message) (sT : Transport.State) (sS : Student.State) :
  ids (Transport.buses (fst (Transport.run sT (Transport.Receive <$> ms))))
  = ids (Transport.buses sT)
  /\ ids (Student.buses sS)
     `prefix_of` ids (Student.buses (fst (Student.run sS (Student.Receive <$> ms))))
  /\ (forall d,
         LocationUpdate d ∈ ms ->
         LocationData.bus_id d
         ∈ ids (Student.buses (fst (Student.run sS (Student.Receive <$> ms))))).
Proof.
  split; [|split].
  - revert sT. induction ms as [|m ms IH]; intros s; [reflexivity|].
    rewrite fmap_cons, transport_run_cons, IH. apply transport_receive_ids.
  - revert sS. induction ms as [|m ms IH]; intros s; [reflexivity|].
    rewrite fmap_cons, student_run_cons.
    etransitivity; [apply (student_receive_prefix s m) | apply IH].
  - assert (Hprefix : forall ms0 s0,
               ids (Student.buses s0)
               `prefix_of` ids (Student.buses
                                  (fst (Student.run s0 (Student.Receive <$> ms0))))).
    { induction ms0 as [|m0 ms0 IH0]; intros s0; [reflexivity|].
      rewrite fmap_cons, student_run_cons.
      etransitivity; [apply (student_receive_prefix s0 m0) | apply IH0]. }
    revert sS. induction ms as [|m ms IH]; intros s d Hd; [inversion Hd|].
    rewrite fmap_cons, student_run_cons.
    apply elem_of_cons in Hd as [<-|Hd]; [|now apply IH].
    destruct (Hprefix ms (fst (Student.step s (Student.Receive (LocationUpdate d)))))
      as [k ->].
    apply elem_of_app. left. rewrite student_receive_ids.
    case_decide; [assumption|]. apply elem_of_app. right. apply list_elem_of_here.
Qed.

Lemma ids_between_snapshots_witness :
  "B9" ∈ ids (Student.buses
                (fst (Student.run
                        (Student.mkState fleet 1 None)
                        (Student.Receive
                           <$> [LocationUpdate (report "B9");
                                EmergencyAlert (Alert.mk "A1" "101" "Smoke" "active" "09:06");
                                LocationUpdate (report "B1")])))).
Proof.
  apply (proj2 (proj2 (ids_between_snapshots
                         [LocationUpdate (report "B9");
                          EmergencyAlert (Alert.mk "A1" "101" "Smoke" "active" "09:06");
                          LocationUpdate (report "B1")]
                         Transport.initial (Student.mkState fleet 1 None)))
               (report "B9")).
  apply list_elem_of_here.
Defined.


(** ** App: the session *)

Section SessionProperties.

Variable stringify : App.User -> string.
Variable parse : string -> option App.User.

Lemma present_login_token (u : App.User) (token : string) (s : Session.State) :
  Session.present (Session.localStorage (Session.handleLogin stringify u token s)) "token"
  = if JS.truthy token then Some token else None.
Proof.
  unfold Session.present, Session.handleLogin. cbn.
  rewrite lookup_insert_ne by discriminate. now rewrite lookup_insert_eq.
Qed.

Lemma present_login_user (u : App.User) (token : string) (s : Session.State) :
  Session.present (Session.localStorage (Session.handleLogin stringify u token s)) "user"
  = if JS.truthy (stringify u) then Some (stringify u) else None.
Proof.
  unfold Session.present, Session.handleLogin. cbn. now rewrite lookup_insert_eq.
Qed.

Lemma present_logout (key : string) (s : Session.State) :
  key = "token" \/ key = "user" ->
  Session.present (Session.localStorage (Session.handleLogout s)) key = None.
Proof.
  unfold Session.present, Session.handleLogout. cbn. intros [->| ->].
  - rewrite lookup_delete_ne by discriminate. now rewrite lookup_delete_eq.
  - now rewrite lookup_delete_eq.
Qed.

(** X16.  After a login with a non-empty token every request carries
    [Authorization: Bearer <token>]; after a logout, or a login whose token
    is empty, the headers of a request are left as they are.  The
    interceptor never touches another header, and a logout removes the two
    keys of the session and no other key of the storage. *)
Theorem bearer_token
        (u : App.User) (token : string) (s : Session.State)
        (headers storage : gmap string string) (key : string) :
  (token <> "" ->
   Session.interceptor
     (Session.localStorage (Session.handleLogin stringify u token s)) headers
   = <["Authorization" := "Bearer " +:+ token]> headers)
  /\ Session.interceptor
       (Session.localStorage (Session.handleLogin stringify u "" s)) headers = headers
  /\ Session.interceptor (Session.localStorage (Session.handleLogout s)) headers = headers
  /\ (key <> "Authorization" ->
      Session.interceptor storage headers !! key = headers !! key)
  /\ Session.localStorage (Session.handleLogout s) !! "token" = None
  /\ Session.localStorage (Session.handleLogout s) !! "user" = None
  /\ (key <> "token" -> key <> "user" ->
      Session.localStorage (Session.handleLogout s) !! key
      = Session.localStorage s !! key).
Proof.
  split; [|split; [|split; [|split; [|split; [|split]]]]].
  - intros Ht. apply truthy_nonempty in Ht. unfold Session.interceptor.
    now rewrite present_login_token, Ht.
  - unfold Session.interceptor. now rewrite present_login_token.
  - unfold Session.interceptor. rewrite present_logout; [reflexivity | now left].
  - intros Hk. unfold Session.interceptor.
    destruct (Session.present storage "token"); [|reflexivity].
    now rewrite lookup_insert_ne.
  - cbn. rewrite lookup_delete_ne by discriminate. apply lookup_delete_eq.
  - cbn. apply lookup_delete_eq.
  - intros Ht Hu. cbn. now rewrite !lookup_delete_ne.
Qed.

(** X17.  A login with a non-empty token survives a reload of the page, as
    long as the stored user text is not empty and parses back to the user;
    a logout does not: after it a reload starts without user.  With an
    empty token the user is stored and still not restored; and when the
    text stored does not parse, the effect throws instead of starting
    without user. *)
Theorem reload_restores_login (u : App.User) (token : string) (s : Session.State) :
  parse (stringify u) = Some u -> stringify u <> "" ->
  (token <> "" ->
   Session.reload parse (Session.handleLogin stringify u token s)
   = Some (Session.handleLogin stringify u token s))
  /\ Session.reload parse (Session.handleLogin stringify u "" s)
     = Some (Session.mkState
               None (Session.localStorage (Session.handleLogin stringify u "" s)))
  /\ Session.reload parse (Session.handleLogout s) = Some (Session.handleLogout s)
  /\ (forall s0 t text,
         Session.localStorage s0 !! "token" = Some t -> t <> "" ->
         Session.localStorage s0 !! "user" = Some text -> text <> "" ->
         parse text = None -> Session.reload parse s0 = None).
Proof.
  intros Hparse Hne. apply truthy_nonempty in Hne.
  split; [|split; [|split]].
  - intros Ht. apply truthy_nonempty in Ht.
    unfold Session.reload, Session.mountEffect. cbn [Session.localStorage].
    change (<["user":=stringify u]> (<["token":=token]> (Session.localStorage s)))
      with (Session.localStorage (Session.handleLogin stringify u token s)).
    now rewrite present_login_token, present_login_user, Ht, Hne, Hparse.
  - unfold Session.reload, Session.mountEffect. cbn [Session.localStorage].
    change (<["user":=stringify u]> (<["token":=""]> (Session.localStorage s)))
      with (Session.localStorage (Session.handleLogin stringify u "" s)).
    now rewrite present_login_token.
  - unfold Session.reload, Session.mountEffect. cbn [Session.localStorage].
    change (delete "user" (delete "token" (Session.localStorage s)))
      with (Session.localStorage (Session.handleLogout s)).
    rewrite !present_logout by tauto. reflexivity.
  - intros s0 t text Ht Htne Hu Hune Hnone.
    apply truthy_nonempty in Htne, Hune.
    unfold Session.reload, Session.mountEffect, Session.present.
    cbn [Session.localStorage]. now rewrite Ht, Htne, Hu, Hune, Hnone.
Qed.

End SessionProperties.

Lemma bearer_token_witness :
  Session.interceptor
    (Session.localStorage
       (Session.handleLogin stringify_asha asha "t0k3n" (Session.mkState None ∅)))
    {["Content-Type" := "application/json"]}
  = <["Authorization" := "Bearer t0k3n"]> {["Content-Type" := "application/json"]}
  /\ Session.interceptor
       ∅ {["Content-Type" := "application/json"]} !! "Content-Type"
     = Some "application/json".
Proof.
  split.
  - apply (bearer_token stringify_asha asha "t0k3n" (Session.mkState None ∅)
                        {["Content-Type" := "application/json"]} ∅ "Content-Type").
    discriminate.
  - rewrite <- (lookup_singleton_eq (M := gmap string) "Content-Type" "application/json").
    apply (bearer_token stringify_asha asha "t0k3n" (Session.mkState None ∅)
                        {["Content-Type" := "application/json"]} ∅ "Content-Type").
    discriminate.
Defined.

Lemma reload_restores_login_witness :
  Session.reload parse_asha
                 (Session.handleLogin stringify_asha asha "t0k3n" (Session.mkState None ∅))
  = Some (Session.handleLogin stringify_asha asha "t0k3n" (Session.mkState None ∅)).
Proof.
  apply (reload_restores_login stringify_asha parse_asha asha "t0k3n");
    [reflexivity | discriminate | discriminate].
Defined.

(** ** StudentDashboard: choosing a bus *)




(** ** Landing: a submission that fails *)

Lemma opt_or_nonempty (a : option string) (b : string) :
  b <> "" -> LandingSubmit.opt_or a b <> "".
Proof.
  intros Hb. destruct a as [v|]; cbn; [now apply or_else_nonempty | exact Hb].
Qed.

Lemma itemText_nonempty (err : LandingSubmit.ErrItem) :
  LandingSubmit.itemText err <> "".
Proof.
  unfold LandingSubmit.itemText. apply opt_or_nonempty, opt_or_nonempty.
  discriminate.
Qed.

Lemma concat_nonempty (sep x : string) (xs : list string) :
  x <> "" -> String.concat sep (x :: xs) <> "".
Proof.
  intros Hx. destruct x as [|c r]; [contradiction|].
  destruct xs; cbn; discriminate.
Qed.

(** X19.  A submission that fails sends its one request, shows one error
    toast and does not log anybody in.  The text of the toast is empty only
    when the detail of the failure is an empty array; a detail that is a
    non-empty string is shown as it is, and the text of an item of an array
    is never empty. *)
Theorem failed_submit_toast
        (isLogin : bool) (f : Landing.FormData) (detail : LandingSubmit.AuthDetail) :
  exists text,
    LandingSubmit.handleSubmit isLogin f (LandingSubmit.AuthFailed detail)
    = ([Landing.submit isLogin f; ToastError (DString text)], None)
    /\ requests [Landing.submit isLogin f; ToastError (DString text)]
       = [Landing.submit isLogin f]
    /\ (text = "" <-> detail = LandingSubmit.ADArray [])
    /\ (forall s, detail = LandingSubmit.ADString s -> s <> "" -> text = s)
    /\ (forall err, detail = LandingSubmit.ADArray [err] ->
                    text = LandingSubmit.itemText err /\ text <> "").
Proof.
  exists (LandingSubmit.errorMessage detail).
  split; [reflexivity|]. split; [now destruct isLogin|]. split; [|split].
  - split.
    + destruct detail as [|s|items|[m|]]; cbn.
      * discriminate.
      * destruct (JS.truthy s) eqn:E; [|discriminate].
        intros ->. discriminate.
      * destruct items as [|x xs]; [reflexivity|].
        intros H. exfalso. revert H. cbn [map].
        apply concat_nonempty, itemText_nonempty.
      * destruct (JS.truthy m) eqn:E; [|discriminate].
        intros ->. discriminate.
      * discriminate.
    + intros ->. reflexivity.
  - intros s -> Hs. apply truthy_nonempty in Hs. cbn. now rewrite Hs.
  - intros err ->. split; [reflexivity|]. apply itemText_nonempty.
Qed.

Lemma failed_submit_toast_witness :
  exists text,
    LandingSubmit.handleSubmit
      true (Landing.mkFormData "a@b.c" "pw" "" "student" "")
      (LandingSubmit.AuthFailed (LandingSubmit.ADString "Invalid credentials"))
    = ([Landing.submit true (Landing.mkFormData "a@b.c" "pw" "" "student" "");
        ToastError (DString text)], None)
    /\ text = "Invalid credentials".
Proof.
  destruct (failed_submit_toast
              true (Landing.mkFormData "a@b.c" "pw" "" "student" "")
              (LandingSubmit.ADString "Invalid credentials"))
    as (text & E & _ & _ & Hs & _).
  exists text. split; [exact E|]. apply (Hs "Invalid credentials" eq_refl).
  discriminate.
Defined.
